(** * semgrep: autofix patch engine and baseline snapshot manager

    A shallow embedding of [semgrep/autofix.py] and [semgrep/git.py].

    Python values are modelled as follows.
    - [str] is [string]; a character is a code point below 256.
    - [int] is [Z]; list and string indices are [Z] because the offsets
      added to them can be negative, and slices clamp as Python does.
    - [Dict] is [gmap], [Set] is [gset]; a [RuleMatchMap] is an association
      list because [items()] iterates in insertion order.
    - The disk is a [gmap] from path to text; external commands answer
      through an oracle record, one field per call site. *)

From Stdlib Require Import ZArith Ascii String List Bool Lia.
From stdpp Require Import base tactics option list gmap sets strings.
Import ListNotations.

#[local] Open Scope string_scope.
#[local] Open Scope list_scope.
#[local] Open Scope Z_scope.

(** ** Python string and list primitives *)

Module Py.

(** [len(s)] *)
Definition len_str (s : string) : Z := Z.of_nat (String.length s).

(** [len(l)] *)
Definition len {A} (l : list A) : Z := Z.of_nat (List.length l).

(** Normalisation of one slice bound against a sequence of length [n]:
    a negative bound counts from the end, and both ends saturate. *)
Definition clamp (n : nat) (k : Z) : nat :=
  if k <? 0 then Z.to_nat (Z.max 0 (Z.of_nat n + k))
  else Z.to_nat (Z.min k (Z.of_nat n)).

(** [l[:k]] *)
Definition slice_to {A} (l : list A) (k : Z) : list A :=
  take (clamp (List.length l) k) l.

(** [l[k:]] *)
Definition slice_from {A} (l : list A) (k : Z) : list A :=
  drop (clamp (List.length l) k) l.

(** [l[a:b]] *)
Definition slice {A} (l : list A) (a b : Z) : list A :=
  let i := clamp (List.length l) a in
  let j := clamp (List.length l) b in
  take (j - i)%nat (drop i l).

(** [l[k]]; [None] stands for [IndexError]. *)
Definition index {A} (l : list A) (k : Z) : option A :=
  if k <? 0 then
    if 0 <=? Z.of_nat (List.length l) + k
    then l !! Z.to_nat (Z.of_nat (List.length l) + k)
    else None
  else l !! Z.to_nat k.

(** [s[:k]] *)
Definition str_slice_to (s : string) (k : Z) : string :=
  substring 0 (clamp (String.length s) k) s.

(** [s[k:]] *)
Definition str_slice_from (s : string) (k : Z) : string :=
  let i := clamp (String.length s) k in
  substring i (String.length s - i) s.

Definition LF : ascii := ascii_of_nat 10.
Definition CR : ascii := ascii_of_nat 13.
Definition NUL : ascii := ascii_of_nat 0.

(** [s.split(c)] for a one-character separator: never empty. *)
Fixpoint split_on (c : ascii) (s : string) : list string :=
  match s with
  | EmptyString => [EmptyString]
  | String a s' =>
      if Ascii.eqb a c then EmptyString :: split_on c s'
      else match split_on c s' with
           | [] => [String a EmptyString]
           | w :: ws => String a w :: ws
           end
  end.

(** [sep.join(l)] for a one-character separator. *)
Fixpoint join_with (c : ascii) (l : list string) : string :=
  match l with
  | [] => EmptyString
  | [w] => w
  | w :: ws => String.append w (String c (join_with c ws))
  end.

(** The line boundaries of [str.splitlines] among code points below 256. *)
Definition is_linebreak (a : ascii) : bool :=
  match nat_of_ascii a with
  | 10%nat | 11%nat | 12%nat | 13%nat | 28%nat | 29%nat | 30%nat | 133%nat => true
  | _ => false
  end.

(** [s.splitlines()]: boundaries are dropped, CR LF counts once, and a
    final boundary opens no further line. *)
Fixpoint splitlines (s : string) : list string :=
  match s with
  | EmptyString => []
  | String a s' =>
      if is_linebreak a then
        match s' with
        | String b s'' =>
            if Ascii.eqb a CR && Ascii.eqb b LF
            then EmptyString :: splitlines s''
            else EmptyString :: splitlines s'
        | EmptyString => [EmptyString]
        end
      else match splitlines s' with
           | [] => [String a EmptyString]
           | w :: ws => String a w :: ws
           end
  end.

(** Text-mode reading translates CR LF and a lone CR to LF. *)
Fixpoint universal_newlines (s : string) : string :=
  match s with
  | EmptyString => EmptyString
  | String a s' =>
      if Ascii.eqb a CR then
        match s' with
        | String b s'' =>
            if Ascii.eqb b LF then String LF (universal_newlines s'')
            else String LF (universal_newlines s')
        | EmptyString => String LF EmptyString
        end
      else String a (universal_newlines s')
  end.

(** [s.strip(c)] for a one-character set. *)
Fixpoint lstrip (c : ascii) (s : string) : string :=
  match s with
  | String a s' => if Ascii.eqb a c then lstrip c s' else s
  | EmptyString => EmptyString
  end.

Fixpoint rstrip (c : ascii) (s : string) : string :=
  match s with
  | EmptyString => EmptyString
  | String a s' =>
      match rstrip c s' with
      | EmptyString => if Ascii.eqb a c then EmptyString else String a EmptyString
      | r => String a r
      end
  end.

Definition strip (c : ascii) (s : string) : string := rstrip c (lstrip c s).

(** Truth value of a string: empty is false. *)
Definition truthy (s : string) : bool :=
  match s with EmptyString => false | _ => true end.

End Py.

(** ** Regular expressions

    [re.sub] belongs to the Python library, not to this repository.  Its
    matcher is taken as a parameter: an engine says whether a pattern and
    a replacement template compile, lists the non-overlapping matches of a
    pattern in a text from left to right (what [re.finditer] yields, each
    as a half-open interval of character positions), and expands the
    template for one match. *)

Record regex_engine : Type := {
  re_compiles : string -> string -> bool;
  re_finditer : string -> string -> list (nat * nat);
  re_expand : string -> string -> string -> nat * nat -> string
}.

Module Re.

(** The matches [re.sub] replaces: the first [count] of them, all of
    them when [count] is 0, none when it is negative. *)
Definition bounded (count : Z) (ms : list (nat * nat)) : list (nat * nat) :=
  if count =? 0 then ms else take (Z.to_nat count) ms.

(** Rebuilds [text] from position [i] on, each listed match replaced by
    its expansion and the text between matches copied. *)
Fixpoint splice (E : regex_engine) (pat repl text : string)
    (i : nat) (ms : list (nat * nat)) : string :=
  match ms with
  | [] => substring i (String.length text - i) text
  | (b, e) :: ms' =>
      String.append (substring i (b - i) text)
        (String.append (re_expand E pat repl text (b, e))
           (splice E pat repl text e ms'))
  end.

(** [re.sub(pat, repl, text, count)]; [None] stands for [re.error]. *)
Definition sub (E : regex_engine) (pat repl text : string) (count : Z)
    : option string :=
  if re_compiles E pat repl
  then Some (splice E pat repl text 0 (bounded count (re_finditer E pat text)))
  else None.

(** An engine for patterns without metacharacters: the pattern matches
    itself, the template expands to itself. *)
Fixpoint literal_scan (pat : string) (skip pos : nat) (text : string)
    : list (nat * nat) :=
  match text with
  | EmptyString => []
  | String _ rest =>
      match skip with
      | S k => literal_scan pat k (S pos) rest
      | O =>
          if String.prefix pat text
          then (pos, (pos + String.length pat)%nat)
                 :: literal_scan pat (String.length pat - 1) (S pos) rest
          else literal_scan pat 0 (S pos) rest
      end
  end.

Definition literal : regex_engine := {|
  re_compiles := fun _ _ => true;
  re_finditer := fun pat text => literal_scan pat 0 0 text;
  re_expand := fun _ repl _ _ => repl
|}.

End Re.

(** ** autofix.py *)

(** What Python raises inside a fix and [apply_fixes] catches and wraps. *)
Inductive py_error : Type :=
| FileNotFoundError (path : string)
| IndexError
| ReError.

(** The [SemgrepError]s of [apply_fixes], one constructor per message. *)
Inductive SemgrepError : Type :=
| UnableToModifyFile (filepath : string) (e : py_error)
| RegexAndReplacementRequired
| CountMustBeInteger
| UnableToUseRegex (filepath : string) (e : py_error).

Record Position : Type := { line : Z; col : Z }.

(** What [int()] raises. *)
Inductive int_error : Type :=
| ValueError
| TypeError
| OverflowError.

(** What ends a pass over the matches: a [SemgrepError], or an exception
    of [int(count)] that no [except] clause of [apply_fixes] names. *)
Inductive raised : Type :=
| Semgrep (e : SemgrepError)
| Uncaught (e : int_error).

Coercion Semgrep : SemgrepError >-> raised.

(** The value a rule's YAML puts under ["count"] of a [fix_regex] mapping:
    an [int] (or a [bool], or a [str] that [int()] reads as an integer), a
    [str] that [int()] does not read, a [float] (finite, given by its
    truncation toward zero, or not a number, or infinite), or a value that
    is no number and no string ([None], a list, a mapping). *)
Inductive count_value : Type :=
| CountInt (z : Z)
| CountNotInt (s : string)
| CountFloat (truncated : Z)
| CountNaN
| CountInfinity
| CountNoNumber.

(** A [fix_regex] mapping, with the three keys a rule may give it; a key
    that is absent is [None]. *)
Record FixRegex : Type := {
  regex : option string;
  replacement : option string;
  count : option count_value
}.

Record RuleMatch : Type := {
  path : string;
  start : Position;
  end_ : Position;
  fix_ : option string;
  fix_regex : option FixRegex;
  extra_fixed_lines : option (list string)
}.

Record Fix : Type := { fixed_contents : string; fixed_lines : list string }.

Record FileOffsets : Type := {
  line_offset : Z;
  col_offset : Z;
  active_line : Z
}.

#[global] Instance Position_eq_dec : EqDecision Position.
Proof. solve_decision. Defined.
#[global] Instance FileOffsets_eq_dec : EqDecision FileOffsets.
Proof. solve_decision. Defined.

Definition SPLIT_CHAR : ascii := Py.LF.

(** The disk: the text of every file that exists. *)
Abbreviation disk := (gmap string string).

(** [_get_lines]: text-mode read, then split on the newline. *)
Definition _get_lines (fs : disk) (p : string) : py_error + list string :=
  match fs !! p with
  | None => inl (FileNotFoundError p)
  | Some contents => inr (Py.split_on SPLIT_CHAR (Py.universal_newlines contents))
  end.

(** [_get_match_context]: zero-based start line, start column, end line
    and end column, shifted by the offsets. *)
Definition _get_match_context (rule_match : RuleMatch) (offsets : FileOffsets)
    : Z * Z * Z * Z :=
  let start_line := line (start rule_match) - 1 in
  let start_col := col (start rule_match) - 1 in
  let end_line := line (end_ rule_match) - 1 in
  let end_col := col (end_ rule_match) - 1 in
  (start_line + line_offset offsets,
   start_col + col_offset offsets,
   end_line + line_offset offsets,
   end_col + col_offset offsets).

(** [_basic_fix] *)
Definition _basic_fix (fs : disk) (rule_match : RuleMatch)
    (file_offsets : FileOffsets) (fix_ : string)
    : py_error + (Fix * FileOffsets) :=
  match _get_lines fs (path rule_match) with
  | inl e => inl e
  | inr lines =>
      let '(start_line, start_col, end_line, end_col) :=
        _get_match_context rule_match file_offsets in
      let before_lines := Py.slice_to lines start_line in
      match Py.index lines start_line, Py.index lines end_line with
      | Some first, Some last =>
          let before_on_start_line := Py.str_slice_to first start_col in
          let after_on_end_line := Py.str_slice_from last end_col in
          let modified_lines :=
            Py.splitlines
              (String.append before_on_start_line
                 (String.append fix_ after_on_end_line)) in
          let after_lines := Py.slice_from lines (end_line + 1) in
          let contents_after_fix := (before_lines ++ modified_lines ++ after_lines)%list in
          let offsets' := {|
            line_offset := Py.len contents_after_fix - Py.len lines;
            col_offset :=
              if start_line =? end_line
              then Py.len_str fix_ - (end_col - start_col)
              else col_offset file_offsets;
            active_line := active_line file_offsets |} in
          inr ({| fixed_contents := Py.join_with SPLIT_CHAR contents_after_fix;
                  fixed_lines := modified_lines |}, offsets')
      | _, _ => inl IndexError
      end
  end.

(** [_regex_replace] *)
Definition _regex_replace (E : regex_engine) (fs : disk) (rule_match : RuleMatch)
    (file_offsets : FileOffsets) (from_str to_str : string) (count : Z)
    : py_error + (Fix * FileOffsets) :=
  match _get_lines fs (path rule_match) with
  | inl e => inl e
  | inr lines =>
      let '(start_line, _, end_line, _) :=
        _get_match_context rule_match file_offsets in
      let before_lines := Py.slice_to lines start_line in
      let after_lines := Py.slice_from lines (end_line + 1) in
      let match_context := Py.slice lines start_line (end_line + 1) in
      match Re.sub E from_str to_str (Py.join_with Py.LF match_context) count with
      | None => inl ReError
      | Some fixed =>
          let modified_context := Py.splitlines fixed in
          let modified_contents := (before_lines ++ modified_context ++ after_lines)%list in
          let offsets' := {|
            line_offset := Py.len modified_context - Py.len match_context;
            col_offset := col_offset file_offsets;
            active_line := active_line file_offsets |} in
          inr ({| fixed_contents := Py.join_with SPLIT_CHAR modified_contents;
                  fixed_lines := modified_context |}, offsets')
      end
  end.

(** [_write_contents]: text-mode writing leaves the newline as it is. *)
Definition _write_contents (fs : disk) (p contents : string) : disk :=
  <[p := contents]> fs.

(** The local variables of [apply_fixes] that live across iterations,
    together with the disk. *)
Record fix_state : Type := {
  st_disk : disk;
  st_offsets : gmap string FileOffsets;
  st_modified : gset string
}.

Definition initial_state (fs : disk) : fix_state :=
  {| st_disk := fs; st_offsets := ∅; st_modified := ∅ |}.

(** [modified_files_offsets.get(filepath, FileOffsets(0, 0, start.line))]:
    the object, and whether it is the one the dictionary holds. *)
Definition retrieve_offsets (offsets : gmap string FileOffsets)
    (rule_match : RuleMatch) : FileOffsets * bool :=
  match offsets !! path rule_match with
  | Some fo => (fo, true)
  | None =>
      ({| line_offset := 0; col_offset := 0;
          active_line := line (start rule_match) |}, false)
  end.

(** The [active_line] test at the head of the loop body. *)
Definition track_active_line (fo : FileOffsets) (rule_match : RuleMatch)
    : FileOffsets :=
  if bool_decide (active_line fo = line (start rule_match)) then fo
  else {| line_offset := line_offset fo; col_offset := 0;
          active_line := line (start rule_match) |}.

(** An assignment to a field of the offsets object is seen through the
    dictionary exactly when the object came from it. *)
Definition store_alias (aliased : bool) (filepath : string) (fo : FileOffsets)
    (offsets : gmap string FileOffsets) : gmap string FileOffsets :=
  if aliased then <[filepath := fo]> offsets else offsets.

(** Truth value of an optional string: [None] and the empty string are false. *)
Definition truthy_opt (o : option string) : option string :=
  match o with
  | Some s => if Py.truthy s then Some s else None
  | None => None
  end.

(** Truth value of a [fix_regex] mapping: false when [None] or without keys. *)
Definition truthy_fix_regex (o : option FixRegex) : option FixRegex :=
  match o with
  | Some d =>
      match regex d, replacement d, count d with
      | None, None, None => None
      | _, _, _ => Some d
      end
  | None => None
  end.

(** [int(count)]: a finite float is truncated; a string that is no
    integer and a NaN raise [ValueError]; an infinite float raises
    [OverflowError]; [None], a list or a mapping raise [TypeError]. *)
Definition int_of_count (c : count_value) : int_error + Z :=
  match c with
  | CountInt z => inr z
  | CountNotInt _ => inl ValueError
  | CountFloat truncated => inr truncated
  | CountNaN => inl ValueError
  | CountInfinity => inl OverflowError
  | CountNoNumber => inl TypeError
  end.

(** The [if fix: ... elif fix_regex: ... else: continue] of the loop body;
    [None] is the [continue].  Of the exceptions of [int(count)] only
    [ValueError] is caught and becomes a [SemgrepError]. *)
Definition compute_fix (E : regex_engine) (fs : disk) (rule_match : RuleMatch)
    (file_offsets : FileOffsets) : option (raised + (Fix * FileOffsets)) :=
  let filepath := path rule_match in
  match truthy_opt (fix_ rule_match) with
  | Some f =>
      match _basic_fix fs rule_match file_offsets f with
      | inl e => Some (inl (Semgrep (UnableToModifyFile filepath e)))
      | inr r => Some (inr r)
      end
  | None =>
      match truthy_fix_regex (fix_regex rule_match) with
      | Some d =>
          match truthy_opt (regex d), truthy_opt (replacement d) with
          | Some re, Some repl =>
              match int_of_count (default (CountInt 0) (count d)) with
              | inl ValueError => Some (inl (Semgrep CountMustBeInteger))
              | inl e => Some (inl (Uncaught e))
              | inr n =>
                  match _regex_replace E fs rule_match file_offsets re repl n with
                  | inl e => Some (inl (Semgrep (UnableToUseRegex filepath e)))
                  | inr r => Some (inr r)
                  end
              end
          | _, _ => Some (inl (Semgrep RegexAndReplacementRequired))
          end
      | None => None
      end
  end.

Inductive step_result : Type :=
| Skipped (st : fix_state)
| Applied (st : fix_state) (rule_match : RuleMatch)
| Failed (st : fix_state) (e : raised).

Definition set_fixed_lines (rule_match : RuleMatch) (ls : list string) : RuleMatch :=
  {| path := path rule_match; start := start rule_match; end_ := end_ rule_match;
     fix_ := fix_ rule_match; fix_regex := fix_regex rule_match;
     extra_fixed_lines := Some ls |}.

(** One iteration of the inner loop of [apply_fixes]. *)
Definition apply_one (E : regex_engine) (dryrun : bool) (st : fix_state)
    (rule_match : RuleMatch) : step_result :=
  let filepath := path rule_match in
  let '(fo0, aliased) := retrieve_offsets (st_offsets st) rule_match in
  let file_offsets := track_active_line fo0 rule_match in
  let offsets1 := store_alias aliased filepath file_offsets (st_offsets st) in
  match compute_fix E (st_disk st) rule_match file_offsets with
  | None =>
      Skipped {| st_disk := st_disk st; st_offsets := offsets1;
                 st_modified := st_modified st |}
  | Some (inl e) =>
      Failed {| st_disk := st_disk st; st_offsets := offsets1;
                st_modified := st_modified st |} e
  | Some (inr (fixobj, new_file_offset)) =>
      if dryrun then
        Applied {| st_disk := st_disk st;
                   st_offsets := store_alias aliased filepath new_file_offset offsets1;
                   st_modified := st_modified st |}
                (set_fixed_lines rule_match (fixed_lines fixobj))
      else
        Applied {| st_disk := _write_contents (st_disk st) filepath (fixed_contents fixobj);
                   st_offsets := <[filepath := new_file_offset]> offsets1;
                   st_modified := {[filepath]} ∪ st_modified st |}
                rule_match
  end.

(** [for rule_match in rule_matches]: the state reached, the match records
    as the loop leaves them, and the error that ended it, if any. *)
Fixpoint apply_matches (E : regex_engine) (dryrun : bool) (st : fix_state)
    (rule_matches : list RuleMatch)
    : fix_state * list RuleMatch * option raised :=
  match rule_matches with
  | [] => (st, [], None)
  | m :: rest =>
      match apply_one E dryrun st m with
      | Skipped st' =>
          let '(st'', rest', err) := apply_matches E dryrun st' rest in
          (st'', m :: rest', err)
      | Applied st' m' =>
          let '(st'', rest', err) := apply_matches E dryrun st' rest in
          (st'', m' :: rest', err)
      | Failed st' e => (st', m :: rest, Some e)
      end
  end.

(** [for _, rule_matches in rule_matches_by_rule.items()] *)
Fixpoint apply_rules (E : regex_engine) (dryrun : bool) (st : fix_state)
    (by_rule : list (string * list RuleMatch))
    : fix_state * list (string * list RuleMatch) * option raised :=
  match by_rule with
  | [] => (st, [], None)
  | (rule, ms) :: rest =>
      match apply_matches E dryrun st ms with
      | (st', ms', Some e) => (st', (rule, ms') :: rest, Some e)
      | (st', ms', None) =>
          let '(st'', rest', err) := apply_rules E dryrun st' rest in
          (st'', (rule, ms') :: rest', err)
      end
  end.

(** What [logger.info] receives at the end of [apply_fixes]. *)
Inductive summary : Type :=
| SuccessfullyModified (num_modified : nat) (plural : string)
| NoFilesModified.

(** Values a Python function can hand back to its caller. *)
Inductive py_value : Type :=
| PyNone
| PyPathSet (paths : gset string).

Inductive completion : Type :=
| Returns (value : py_value) (logged : summary)
| Raises (e : raised).

Record fixes_run : Type := {
  run_state : fix_state;
  run_matches : list (string * list RuleMatch);
  run_completion : completion
}.

Definition report (modified_files : gset string) : summary :=
  let num_modified := size modified_files in
  if bool_decide (num_modified = 0%nat) then NoFilesModified
  else SuccessfullyModified num_modified
         (if bool_decide (1 < num_modified)%nat then "s" else "").

(** [apply_fixes]: the function falls off its end, so it returns [None]. *)
Definition apply_fixes (E : regex_engine) (fs : disk)
    (rule_matches_by_rule : list (string * list RuleMatch)) (dryrun : bool)
    : fixes_run :=
  let '(st, out, err) := apply_rules E dryrun (initial_state fs) rule_matches_by_rule in
  {| run_state := st;
     run_matches := out;
     run_completion :=
       match err with
       | Some e => Raises e
       | None => Returns PyNone (report (st_modified st))
       end |}.

(** ** git.py *)

(** [pathlib.Path]: a type of its own, never equal to a [str].  A path
    holds the normal form of the text it was made from, so that two paths
    are equal when Python finds them equal. *)
Inductive Path : Type := MkPath (s : string).

(** The leading slashes pathlib keeps: exactly two stay two, one or more
    than two become one. *)
Definition path_root (s : string) : string :=
  match s with
  | String "/" (String "/" (String "/" _)) => "/"
  | String "/" (String "/" _) => "//"
  | String "/" _ => "/"
  | _ => EmptyString
  end.

(** The components pathlib keeps: neither empty nor a single dot. *)
Definition path_parts (s : string) : list string :=
  List.filter (fun x => negb (String.eqb x EmptyString) && negb (String.eqb x "."))
    (Py.split_on "/" s).

(** [Path(s)] on a POSIX system: repeated and trailing slashes and the
    components [.] go; what is left of an empty path is [.].  So
    [Path("ud/")] is [Path("ud")]. *)
Definition Path_of (s : string) : Path :=
  let text := String.append (path_root s) (Py.join_with "/" (path_parts s)) in
  MkPath (if Py.truthy text then text else ".").

(** [str(p)] *)
Definition str_of_path (p : Path) : string := match p with MkPath s => s end.

#[global] Instance Path_eq_dec : EqDecision Path.
Proof. solve_decision. Defined.

(** Elements of a Python set that mixes strings and paths: equality (and
    so membership and intersection) never identifies a [str] with a
    [Path], whatever their text. *)
Inductive py_key : Type :=
| KStr (s : string)
| KPath (p : Path).

#[global] Instance py_key_eq_dec : EqDecision py_key.
Proof. solve_decision. Defined.

#[global] Program Instance py_key_countable : Countable py_key :=
  inj_countable'
    (fun k => match k with KStr s => inl s | KPath (MkPath s) => inr s end)
    (fun x => match x with inl s => KStr s | inr s => KPath (MkPath s) end)
    _.
Next Obligation. by intros [s|[s]]. Qed.

Module StatusCode.
Definition Added := "A".
Definition Deleted := "D".
Definition Renamed := "R".
Definition Modified := "M".
Definition Unmerged := "U".
Definition Ignored := "!".
Definition Untracked := "?".
Definition Unstaged := " ".
End StatusCode.

Record GitStatus : Type := {
  added : list Path;
  modified : list Path;
  removed : list Path;
  unmerged : list Path
}.

(** [zsplit] *)
Definition zsplit (s : string) : list string :=
  let s := Py.strip Py.NUL s in
  if Py.truthy s then Py.split_on Py.NUL s else [].

(** Whitespace as [str.strip()] sees it, among code points below 256. *)
Definition is_space (a : ascii) : bool :=
  match nat_of_ascii a with
  | 9%nat | 10%nat | 11%nat | 12%nat | 13%nat
  | 28%nat | 29%nat | 30%nat | 31%nat | 32%nat | 133%nat | 160%nat => true
  | _ => false
  end.

Fixpoint lstrip_ws (s : string) : string :=
  match s with
  | String a s' => if is_space a then lstrip_ws s' else s
  | EmptyString => EmptyString
  end.

Fixpoint rstrip_ws (s : string) : string :=
  match s with
  | EmptyString => EmptyString
  | String a s' =>
      match rstrip_ws s' with
      | EmptyString => if is_space a then EmptyString else String a EmptyString
      | r => String a r
      end
  end.

(** [s.strip()] *)
Definition strip_ws (s : string) : string := rstrip_ws (lstrip_ws s).

(** [needle in hay] *)
Fixpoint contains (needle hay : string) : bool :=
  String.prefix needle hay ||
  match hay with
  | EmptyString => false
  | String _ rest => contains needle rest
  end.

(** *** External processes *)

(** What a child process did once started, or that it could not be started. *)
Inductive child : Type :=
| Exited (code : Z) (out err : string)
| NotStarted.

(** The same under a time limit. *)
Inductive timed : Type :=
| Finished (c : child)
| TimedOut.

Record CompletedProcess : Type := {
  returncode : Z;
  stdout : option string;
  stderr : option string
}.

(** The messages of the [Exception]s git.py raises itself. *)
Inductive fatal : Type :=
| CannotFindCommit (base_commit : string)
| ErrorInitializingBaseline (cmd : list string) (code : Z)
| PendingChanges
| UntrackedConflict (base_commit : string) (overlapping_paths : gset py_key)
| FatalRestoringGitState (output : string).

Inductive git_error : Type :=
| CalledProcessError (cmd : list string) (code : Z)
| TimeoutExpired (cmd : list string)
| SpawnError (cmd : list string)
| GitIndexError
| AttributeError (what : string)
| UnlinkError (p : Path)
| GitException (msg : fatal)
| CallerError (tag : string).

(** [subprocess.run(cmd, stdout=..., stderr=..., check=...)]: a stream is
    available on the result only when it was piped; otherwise the attribute
    is [None]. *)
Definition subprocess_run (pipe_stdout pipe_stderr check : bool)
    (cmd : list string) (c : timed) : git_error + CompletedProcess :=
  match c with
  | TimedOut => inl (TimeoutExpired cmd)
  | Finished NotStarted => inl (SpawnError cmd)
  | Finished (Exited code out err) =>
      if check && negb (code =? 0) then inl (CalledProcessError cmd code)
      else inr {| returncode := code;
                  stdout := if pipe_stdout then Some out else None;
                  stderr := if pipe_stderr then Some err else None |}
  end.

(** *** The status set *)

Inductive loop_result (A : Type) : Type :=
| Done (a : A)
| Error (e : git_error)
| OutOfFuel.
Arguments Done {A} a.
Arguments Error {A} e.
Arguments OutOfFuel {A}.

Inductive iteration : Type :=
| Continue
| Trimmed (acc : GitStatus) (rest : list string)
| Crashed (e : git_error).

Definition first_char (s : string) : string :=
  match s with
  | String a _ => String a EmptyString
  | EmptyString => EmptyString
  end.

(** One pass through the body of the [while] loop of [_get_git_status];
    [status_output] is not empty.  [Continue] is the [continue] statement:
    control goes back to the loop test with every variable as it was. *)
Definition status_iteration (is_symlink_to_dir : string -> bool)
    (acc : GitStatus) (status_output : list string) : iteration :=
  match Py.index status_output 0, Py.index status_output 1 with
  | Some code, Some fname =>
      let trim_size := 2%nat in
      if negb (Py.truthy (strip_ws code)) then Continue
      else if String.eqb code StatusCode.Untracked
              || String.eqb code StatusCode.Ignored then Continue
      else
        let p := Path_of fname in
        if is_symlink_to_dir fname then Continue
        else
          let unmerged1 :=
            if String.eqb code StatusCode.Unmerged
            then unmerged acc ++ [p] else unmerged acc in
          let renamed := String.eqb (first_char code) StatusCode.Renamed in
          match (if renamed then Py.index status_output 2 else Some EmptyString) with
          | None => Crashed GitIndexError
          | Some new_fname =>
              let removed1 := if renamed then removed acc ++ [p] else removed acc in
              let trim_size := if renamed then S trim_size else trim_size in
              let added1 :=
                if renamed then added acc ++ [Path_of new_fname] else added acc in
              let added2 :=
                if String.eqb code StatusCode.Added then added1 ++ [p] else added1 in
              let modified1 :=
                if String.eqb code StatusCode.Modified
                then modified acc ++ [p] else modified acc in
              let removed2 :=
                if String.eqb code StatusCode.Deleted
                then removed1 ++ [p] else removed1 in
              Trimmed {| added := added2; modified := modified1;
                         removed := removed2; unmerged := unmerged1 |}
                      (drop trim_size status_output)
          end
  | _, _ => Crashed GitIndexError
  end.

(** The [while status_output:] loop, at most [fuel] passes through its body. *)
Fixpoint status_loop (fuel : nat) (is_symlink_to_dir : string -> bool)
    (acc : GitStatus) (status_output : list string) : loop_result GitStatus :=
  match status_output with
  | [] => Done acc
  | _ :: _ =>
      match fuel with
      | O => OutOfFuel
      | S fuel' =>
          match status_iteration is_symlink_to_dir acc status_output with
          | Continue => status_loop fuel' is_symlink_to_dir acc status_output
          | Trimmed acc' rest => status_loop fuel' is_symlink_to_dir acc' rest
          | Crashed e => Error e
          end
      end
  end.

Definition git_diff_cmd (base_commit : string) : list string :=
  ["git"; "diff"; "--cached"; "--name-status"; "--no-ext-diff"; "-z";
   "--diff-filter=ACDMRTUXB"; "--ignore-submodules"; "--relative";
   "--merge-base"; base_commit].

Definition empty_status : GitStatus :=
  {| added := []; modified := []; removed := []; unmerged := [] |}.

(** [_get_git_status] *)
Definition _get_git_status (fuel : nat) (base_commit : string)
    (git_diff : timed) (is_symlink_to_dir : string -> bool)
    : loop_result GitStatus :=
  match subprocess_run true true true (git_diff_cmd base_commit) git_diff with
  | inl e => Error e
  | inr x =>
      status_loop fuel is_symlink_to_dir empty_status
        (zsplit (default EmptyString (stdout x)))
  end.

(** *** The dirty-path index and the two precondition checks *)

Definition git_status_cmd : list string := ["git"; "status"; "--porcelain"; "-z"].

(** The [for line in output] loop of [_get_dirty_paths_by_status]. *)
Fixpoint group_dirty (output : list string) (dirty_paths : gmap string (list Path))
    : git_error + gmap string (list Path) :=
  match output with
  | [] => inr dirty_paths
  | line :: rest =>
      match line with
      | EmptyString => inl GitIndexError
      | String a _ =>
          let status_code := String a EmptyString in
          let p := Path_of (Py.str_slice_from line 3) in
          group_dirty rest
            (match dirty_paths !! status_code with
             | Some ps => <[status_code := ps ++ [p]]> dirty_paths
             | None => <[status_code := [p]]> dirty_paths
             end)
      end
  end.

(** [_get_dirty_paths_by_status]: the cached index when there is one,
    otherwise the index read from [git status], which the handler then
    keeps. *)
Definition _get_dirty_paths_by_status (cache : option (gmap string (list Path)))
    (git_status : timed) : git_error + gmap string (list Path) :=
  match cache with
  | Some dirty_paths => inr dirty_paths
  | None =>
      match subprocess_run true true true git_status_cmd git_status with
      | inl e => inl e
      | inr x => group_dirty (zsplit (default EmptyString (stdout x))) ∅
      end
  end.

(** [_abort_on_pending_changes]; hands back the index the handler now caches. *)
Definition _abort_on_pending_changes (cache : option (gmap string (list Path)))
    (git_status : timed) : git_error + gmap string (list Path) :=
  match _get_dirty_paths_by_status cache git_status with
  | inl e => inl e
  | inr dirty_paths =>
      if bool_decide (dom dirty_paths ∖ {[StatusCode.Untracked]} = (∅ : gset string))
      then inr dirty_paths
      else inl (GitException PendingChanges)
  end.

(** The three sets of [_abort_on_conflicting_untracked_paths]. *)
Definition changed_paths (status : GitStatus) : gset py_key :=
  list_to_set (KPath <$> (added status ++ modified status
                            ++ removed status ++ unmerged status)).

Definition untracked_paths (dirty_paths : gmap string (list Path)) : gset py_key :=
  list_to_set ((fun p => KStr (str_of_path p))
                 <$> default [] (dirty_paths !! StatusCode.Untracked)).

Definition overlapping_paths (dirty_paths : gmap string (list Path))
    (status : GitStatus) : gset py_key :=
  untracked_paths dirty_paths ∩ changed_paths status.

(** [_abort_on_conflicting_untracked_paths], the index already cached. *)
Definition _abort_on_conflicting_untracked_paths (base_commit : string)
    (dirty_paths : gmap string (list Path)) (status : GitStatus)
    : git_error + unit :=
  if bool_decide (overlapping_paths dirty_paths status = ∅) then inr tt
  else inl (GitException
              (UntrackedConflict base_commit (overlapping_paths dirty_paths status))).

(** *** Construction *)

Record BaselineHandler : Type := {
  _base_commit : string;
  _dirty_paths_by_status : option (gmap string (list Path));
  status : GitStatus
}.

(** What the environment answers during construction. *)
Record init_oracle : Type := {
  cat_file : child;
  git_diff : timed;
  is_symlink_to_dir : string -> bool;
  git_status : timed
}.

(** The outer [except subprocess.CalledProcessError] of [__init__]. *)
Definition reraise_initializing (e : git_error) : git_error :=
  match e with
  | CalledProcessError cmd code => GitException (ErrorInitializingBaseline cmd code)
  | _ => e
  end.

(** [BaselineHandler.__init__] *)
Definition BaselineHandler__init__ (fuel : nat) (base_commit : string)
    (o : init_oracle) : loop_result BaselineHandler :=
  match subprocess_run true true true ["git"; "cat-file"; "-e"; base_commit]
          (Finished (cat_file o)) with
  | inl (CalledProcessError _ _) => Error (GitException (CannotFindCommit base_commit))
  | inl e => Error e
  | inr _ =>
      match _get_git_status fuel base_commit (git_diff o) (is_symlink_to_dir o) with
      | OutOfFuel => OutOfFuel
      | Error e => Error (reraise_initializing e)
      | Done st =>
          match _abort_on_pending_changes None (git_status o) with
          | inl e => Error (reraise_initializing e)
          | inr dirty_paths =>
              match _abort_on_conflicting_untracked_paths base_commit dirty_paths st with
              | inl e => Error (reraise_initializing e)
              | inr _ =>
                  Done {| _base_commit := base_commit;
                          _dirty_paths_by_status := Some dirty_paths;
                          status := st |}
              end
          end
      end
  end.

(** *** The scoped swap *)

Inductive checkout_site : Type := Baseline | Restoration.

Inductive unlink_result : Type := Unlinked | NotFound | UnlinkFailed.

(** What [baseline_context] does to the outside, in order, and the two
    messages that report a failure it tolerates. *)
Inductive event : Type :=
| RanGitStatus (c : timed)
| RanWriteTree (c : timed)
| Unlink (p : Path) (r : unlink_result)
| Checkout (site : checkout_site) (target : string) (c : timed)
| Yield (raised : option string)
| GitRm (paths : list Path) (c : timed)
| LogVerbose (msg : string)
| LogDebug (msg : string).

(** What the environment answers during the swap, one field per call
    site; [body] is what the caller's block does at the [yield]: [None]
    when it ends normally, the exception it raises otherwise. *)
Record context_oracle : Type := {
  ctx_git_status : timed;
  write_tree : timed;
  unlink : nat -> Path -> unlink_result;
  checkout_baseline : timed;
  body : option string;
  checkout_restore : timed;
  exists_ : Path -> bool;
  git_rm : timed
}.

(** Computations that leave a trace and may raise. *)
Definition M (A : Type) : Type := list event * (git_error + A).

Definition ret {A} (a : A) : M A := ([], inr a).
Definition raise {A} (e : git_error) : M A := ([], inl e).
Definition emit (ev : event) : M unit := ([ev], inr tt).
Definition lift {A} (r : git_error + A) : M A := ([], r).

Definition bind {A B} (m : M A) (k : A -> M B) : M B :=
  match m with
  | (t, inl e) => (t, inl e)
  | (t, inr a) => let '(t', r) := k a in (t ++ t', r)
  end.

(** [try: body finally: cleanup]: the cleanup always runs; what it raises
    replaces what the body raised. *)
Definition try_finally {A} (body : M A) (cleanup : M unit) : M A :=
  let '(t1, r1) := body in
  let '(t2, r2) := cleanup in
  (t1 ++ t2, match r2 with inl e => inl e | inr _ => r1 end).

Notation "x <~ m ;; k" := (bind m (fun x => k))
  (at level 100, m at next level, right associativity).
Notation "m ;;; k" := (bind m (fun _ => k))
  (at level 100, right associativity).

(** A [subprocess.run] call that leaves [ev] in the trace. *)
Definition run (ev : event) (pipe_stdout pipe_stderr check : bool)
    (cmd : list string) (c : timed) : M CompletedProcess :=
  emit ev ;;; lift (subprocess_run pipe_stdout pipe_stderr check cmd c).

(** [for a in status.added: a.unlink()], [FileNotFoundError] tolerated. *)
Fixpoint unlink_added (unlink : nat -> Path -> unlink_result) (i : nat)
    (paths : list Path) : M unit :=
  match paths with
  | [] => ret tt
  | a :: rest =>
      match unlink i a with
      | Unlinked => emit (Unlink a Unlinked) ;;; unlink_added unlink (S i) rest
      | NotFound =>
          emit (Unlink a NotFound) ;;;
          emit (LogVerbose "was not found when trying to delete") ;;;
          unlink_added unlink (S i) rest
      | UnlinkFailed => emit (Unlink a UnlinkFailed) ;;; raise (UnlinkError a)
      end
  end.

Definition benign_pattern : string :=
  "pathspec '.' did not match any file(s) known to git".

Definition skipping_checkout : string :=
  "Restoring git index failed due to total repository deletion; skipping checkout".

(** The [if x.returncode != 0:] block of the [finally] clause. *)
Definition check_restored (x : CompletedProcess) : M unit :=
  if negb (returncode x =? 0) then
    match stderr x with
    | None => raise (AttributeError "'NoneType' object has no attribute 'decode'")
    | Some output =>
        if Py.truthy output && (2 <=? Py.len_str output)
           && contains benign_pattern (strip_ws output)
        then emit (LogDebug skipping_checkout)
        else raise (GitException (FatalRestoringGitState output))
    end
  else ret tt.

(** The [if status.removed:] block of the [finally] clause. *)
Definition remove_again (o : context_oracle) (status : GitStatus) : M unit :=
  match removed status with
  | [] => ret tt
  | _ :: _ =>
      let to_remove := List.filter (exists_ o) (removed status) in
      match to_remove with
      | [] => ret tt
      | _ :: _ =>
          _ <~ run (GitRm to_remove (git_rm o)) false false false
                 (["git"; "rm"; "-f"] ++ (str_of_path <$> to_remove)) (git_rm o) ;;
          ret tt
      end
  end.

Definition checkout_cmd (target : string) : list string :=
  ["git"; "checkout"; target; "--"; "."].

(** The statements of [baseline_context] before its [try]: both
    precondition checks again, then the snapshot of the current tree. *)
Definition record_tree (self : BaselineHandler) (o : context_oracle) : M string :=
  dirty_paths <~
    (match _dirty_paths_by_status self with
     | Some _ => ret tt
     | None => emit (RanGitStatus (ctx_git_status o))
     end ;;;
     lift (_abort_on_pending_changes (_dirty_paths_by_status self) (ctx_git_status o))) ;;
  lift (_abort_on_conflicting_untracked_paths
          (_base_commit self) dirty_paths (status self)) ;;;
  x <~ run (RanWriteTree (write_tree o)) true true true
         ["git"; "write-tree"] (write_tree o) ;;
  ret (strip_ws (default EmptyString (stdout x))).

(** The [try] block: the generator up to its [yield], then the caller's
    block, whose exception is thrown into the generator at the [yield]. *)
Definition swap_in (self : BaselineHandler) (o : context_oracle) : M unit :=
  unlink_added (unlink o) 0 (added (status self)) ;;;
  _ <~ run (Checkout Baseline (_base_commit self) (checkout_baseline o))
         false false true (checkout_cmd (_base_commit self)) (checkout_baseline o) ;;
  emit (Yield (body o)) ;;;
  match body o with
  | None => ret tt
  | Some tag => raise (CallerError tag)
  end.

(** The [finally] block. *)
Definition swap_out (self : BaselineHandler) (o : context_oracle)
    (current_tree : string) : M unit :=
  x <~ run (Checkout Restoration (strip_ws current_tree) (checkout_restore o))
         false false false (checkout_cmd (strip_ws current_tree))
         (checkout_restore o) ;;
  check_restored x ;;;
  remove_again o (status self).

(** [BaselineHandler.baseline_context] together with the caller's block. *)
Definition baseline_context (self : BaselineHandler) (o : context_oracle) : M unit :=
  current_tree <~ record_tree self o ;;
  try_finally (swap_in self o) (swap_out self o current_tree).

(** *** Reading a trace *)





(** The paths a trace tried to unlink, in order. *)
Definition unlink_attempts (t : list event) : list Path :=
  omap (fun ev => match ev with Unlink p _ => Some p | _ => None end) t.

Definition is_unlink_failure (ev : event) : bool :=
  match ev with Unlink _ UnlinkFailed => true | _ => false end.

(** The statement an event comes from: one before the [try], the loop
    that deletes the added paths, the end of the [finally] clause. *)
Definition before_try (ev : event) : bool :=
  match ev with RanGitStatus _ | RanWriteTree _ => true | _ => false end.

Definition deleting (ev : event) : bool :=
  match ev with Unlink _ _ | LogVerbose _ => true | _ => false end.

Definition after_restore (ev : event) : bool :=
  match ev with LogDebug _ | GitRm _ _ => true | _ => false end.


Definition is_yield (ev : event) : bool :=
  match ev with Yield _ => true | _ => false end.

(** The empty-repository failure the [finally] clause means to tolerate:
    the restoration exits with a code other than 0 and its diagnostic
    output carries the known pattern. *)
Definition empty_repository_failure (c : timed) : bool :=
  match c with
  | Finished (Exited code _ err) =>
      negb (code =? 0) && contains benign_pattern (strip_ws err)
  | _ => false
  end.

(** *** Entries of a name-status diff *)

(** One record of [git diff --name-status -z] as the loop knows them: a
    code and a path, and for a rename the new path as well.  A copy
    record, which has two paths too, is none of these. *)
Inductive diff_entry : Type :=
| Plain (code fname : string)
| Rename (code old_fname new_fname : string).

Definition fields (e : diff_entry) : list string :=
  match e with
  | Plain code fname => [code; fname]
  | Rename code old_fname new_fname => [code; old_fname; new_fname]
  end.

(** An entry the loop classifies: a rename has a code that starts with R;
    any other entry has a code that is not blank, is not the untracked or
    the ignored code and does not start with R; and the path it names is
    not a symbolic link to a directory. *)
Definition classified (is_symlink_to_dir : string -> bool) (e : diff_entry) : bool :=
  match e with
  | Plain code fname =>
      Py.truthy (strip_ws code)
      && negb (String.eqb code StatusCode.Untracked)
      && negb (String.eqb code StatusCode.Ignored)
      && negb (String.eqb (first_char code) StatusCode.Renamed)
      && negb (is_symlink_to_dir fname)
  | Rename code old_fname _ =>
      String.eqb (first_char code) StatusCode.Renamed
      && negb (is_symlink_to_dir old_fname)
  end.

(** The paths of the entries whose code is exactly [code]. *)
Definition paths_with_code (code : string) (es : list diff_entry) : list Path :=
  omap (fun e => match e with
                 | Plain c fname => if String.eqb c code then Some (Path_of fname) else None
                 | Rename _ _ _ => None
                 end) es.

(** The status set the specification assigns to a list of entries: a
    rename removes its old path and adds its new one; the codes A, M, D
    and U add to the added, modified, removed and unmerged lists. *)
Definition classify_entry (acc : GitStatus) (e : diff_entry) : GitStatus :=
  match e with
  | Rename _ old_fname new_fname =>
      {| added := added acc ++ [Path_of new_fname];
         modified := modified acc;
         removed := removed acc ++ [Path_of old_fname];
         unmerged := unmerged acc |}
  | Plain code fname =>
      let p := Path_of fname in
      {| added := if String.eqb code StatusCode.Added
                  then added acc ++ [p] else added acc;
         modified := if String.eqb code StatusCode.Modified
                     then modified acc ++ [p] else modified acc;
         removed := if String.eqb code StatusCode.Deleted
                    then removed acc ++ [p] else removed acc;
         unmerged := if String.eqb code StatusCode.Unmerged
                     then unmerged acc ++ [p] else unmerged acc |}
  end.

(** *** Reading a run of [apply_fixes] *)

(** The offsets a file starts with. *)
Definition fresh_offsets (rule_match : RuleMatch) : FileOffsets :=
  {| line_offset := 0; col_offset := 0; active_line := line (start rule_match) |}.

(** A match record with the lines its fix computes on the disk [fs]
    attached, or as it is when it carries no fix or the fix fails. *)
Definition preview (E : regex_engine) (fs : disk) (rule_match : RuleMatch)
    : RuleMatch :=
  match compute_fix E fs rule_match (fresh_offsets rule_match) with
  | Some (inr (fixobj, _)) => set_fixed_lines rule_match (fixed_lines fixobj)
  | _ => rule_match
  end.

(** The whole mapping with every preview attached. *)
Definition preview_all (E : regex_engine) (fs : disk)
    (by_rule : list (string * list RuleMatch)) : list (string * list RuleMatch) :=
  (fun rm : string * list RuleMatch => (rm.1, preview E fs <$> rm.2)) <$> by_rule.

(** Whether a match record carries a fix directive. *)
Definition has_directive (rule_match : RuleMatch) : bool :=
  match truthy_opt (fix_ rule_match), truthy_fix_regex (fix_regex rule_match) with
  | None, None => false
  | _, _ => true
  end.

(** Every match record of the mapping, in iteration order. *)
Definition all_matches (by_rule : list (string * list RuleMatch)) : list RuleMatch :=
  concat (snd <$> by_rule).

(** What the caller of [apply_fixes] receives, if the call returns. *)
Definition returned (r : fixes_run) : option py_value :=
  match run_completion r with
  | Returns v _ => Some v
  | Raises _ => None
  end.

(** What the call logged at its end, if it returns. *)
Definition logged_summary (r : fixes_run) : option summary :=
  match run_completion r with
  | Returns _ s => Some s
  | Raises _ => None
  end.

(** The number of lines of a file on a disk, as [_get_lines] counts them. *)
Definition line_count (fs : disk) (p : string) : Z :=
  match _get_lines fs p with
  | inr lines => Py.len lines
  | inl _ => 0
  end.

(** The text with the leftmost match of the pattern replaced, and with
    every match replaced. *)
Definition replace_first (E : regex_engine) (pat repl text : string) : string :=
  match re_finditer E pat text with
  | [] => text
  | (b, e) :: _ =>
      String.append (substring 0 b text)
        (String.append (re_expand E pat repl text (b, e))
           (substring e (String.length text - e) text))
  end.

Definition replace_all (E : regex_engine) (pat repl text : string) : string :=
  Re.splice E pat repl text 0 (re_finditer E pat text).

(** ** Scenarios *)

Module Scenario.

Definition nl : string := String Py.LF EmptyString.
Definition nul : string := String Py.NUL EmptyString.

Definition literal_match (p : string) (l1 c1 l2 c2 : Z) (replacement : string)
    : RuleMatch :=
  {| path := p; start := {| line := l1; col := c1 |};
     end_ := {| line := l2; col := c2 |};
     fix_ := Some replacement; fix_regex := None; extra_fixed_lines := None |}.

Definition regex_match (p : string) (l1 c1 l2 c2 : Z) (d : FixRegex) : RuleMatch :=
  {| path := p; start := {| line := l1; col := c1 |};
     end_ := {| line := l2; col := c2 |};
     fix_ := None; fix_regex := Some d; extra_fixed_lines := None |}.

(** The file of the concrete scenario of the specification. *)
Definition a_txt : disk :=
  {[ "a.txt" := String.append "foo bar" (String.append nl (String.append "baz foo" nl)) ]}.

Definition expected : string :=
  String.append "qux bar" (String.append nl (String.append "baz qux" nl)).

(** The two matches with the columns the scenario gives, the end column
    read as the record's exclusive end, and read as the last column of the
    match. *)
Definition as_stated_exclusive : list RuleMatch :=
  [literal_match "a.txt" 1 1 1 3 "qux"; literal_match "a.txt" 2 6 2 8 "qux"].

Definition as_stated_inclusive : list RuleMatch :=
  [literal_match "a.txt" 1 1 1 4 "qux"; literal_match "a.txt" 2 6 2 9 "qux"].

(** The two matches where [foo] stands: columns 1 to 4 of line 1 and
    columns 5 to 8 of line 2, the end exclusive. *)
Definition where_foo_stands : list RuleMatch :=
  [literal_match "a.txt" 1 1 1 4 "qux"; literal_match "a.txt" 2 5 2 8 "qux"].

(** Three lines, and on each a fix that puts two lines in place of one. *)
Definition three_lines : disk :=
  {[ "f.txt" := String.append "a" (String.append nl
                 (String.append "b" (String.append nl (String.append "c" nl)))) ]}.

Definition two_for_one : string := String.append "x" (String.append nl "y").

Definition growing_fixes : list RuleMatch :=
  [literal_match "f.txt" 1 1 1 2 two_for_one;
   literal_match "f.txt" 2 1 2 2 two_for_one;
   literal_match "f.txt" 3 1 3 2 two_for_one].

(** A path deleted from the index since the reference commit and present
    again as an untracked file. *)
Definition clobbering : init_oracle :=
  {| cat_file := Exited 0 EmptyString EmptyString;
     git_diff := Finished (Exited 0
       (String.append "D" (String.append nul (String.append "old.txt" nul)))
       EmptyString);
     is_symlink_to_dir := fun _ => false;
     git_status := Finished (Exited 0 (String.append "?? old.txt" nul) EmptyString) |}.

(** A symbolic link to a directory added since the reference commit. *)
Definition linked_directory : init_oracle :=
  {| cat_file := Exited 0 EmptyString EmptyString;
     git_diff := Finished (Exited 0
       (String.append "A" (String.append nul (String.append "linkdir" nul)))
       EmptyString);
     is_symlink_to_dir := fun fname => String.eqb fname "linkdir";
     git_status := Finished (Exited 0 EmptyString EmptyString) |}.

Definition clean_handler : BaselineHandler :=
  {| _base_commit := "main";
     _dirty_paths_by_status := Some ∅;
     status := {| added := [MkPath "new.txt"]; modified := [];
                  removed := []; unmerged := [] |} |}.

(** A swap whose restoration fails as it does on a tree without files. *)
Definition empty_tree (diagnostic : string) : context_oracle :=
  {| ctx_git_status := Finished (Exited 0 EmptyString EmptyString);
     write_tree := Finished (Exited 0 (String.append "4b825dc6" nl) EmptyString);
     unlink := fun _ _ => Unlinked;
     checkout_baseline := Finished (Exited 0 EmptyString EmptyString);
     body := None;
     checkout_restore := Finished (Exited 1 EmptyString diagnostic);
     exists_ := fun _ => false;
     git_rm := Finished (Exited 0 EmptyString EmptyString) |}.

Definition benign_diagnostic : string :=
  "error: pathspec '.' did not match any file(s) known to git".

(** A file with the pattern three times on its second line. *)
Definition three_times : disk :=
  {[ "r.txt" := String.append "foo" (String.append nl
                 (String.append "foo foo foo" (String.append nl "foo"))) ]}.

Definition directive (c : option count_value) : FixRegex :=
  {| regex := Some "foo"; replacement := Some "qux"; count := c |}.

(** Three lines that hold [foo], and on each a regex fix that puts [0]
    and a newline in place of the first [o] of the line, so that each fix
    puts two lines in place of one. *)
Definition three_foo : disk :=
  {[ "g.txt" := String.append "foo" (String.append nl
                 (String.append "foo" (String.append nl (String.append "foo" nl)))) ]}.

Definition breaking : FixRegex :=
  {| regex := Some "o"; replacement := Some (String.append "0" nl);
     count := Some (CountInt 1) |}.

Definition growing_regex_fixes : list RuleMatch :=
  [regex_match "g.txt" 1 1 1 4 breaking;
   regex_match "g.txt" 2 1 2 4 breaking;
   regex_match "g.txt" 3 1 3 4 breaking].

(** What [git diff --name-status -z] prints for a file copied to
    [copy.txt] and renamed to [renamed.txt] when copies are detected: a
    copy record, which has a code and two paths as a rename record has,
    and then the rename record. *)
Definition copy_then_rename : string :=
  String.append "C100" (String.append nul
    (String.append "a.txt" (String.append nul
      (String.append "copy.txt" (String.append nul
        (String.append "R100" (String.append nul
          (String.append "a.txt" (String.append nul
            (String.append "renamed.txt" nul)))))))))).

End Scenario.

(** ** Texts and records *)

(** Whether a text is free of one character, and free of every line
    boundary of [str.splitlines]. *)
Fixpoint char_free (c : ascii) (s : string) : bool :=
  match s with
  | EmptyString => true
  | String a s' => negb (Ascii.eqb a c) && char_free c s'
  end.

Fixpoint linebreak_free (s : string) : bool :=
  match s with
  | EmptyString => true
  | String a s' => negb (Py.is_linebreak a) && linebreak_free s'
  end.

(** The output of a git command run with [-z]: every field followed by a
    null character. *)
Fixpoint nul_terminated (fields : list string) : string :=
  match fields with
  | [] => EmptyString
  | f :: rest => String.append f (String Py.NUL (nul_terminated rest))
  end.

(** The paths of the records of [git status --porcelain] whose first
    character is [code], in order. *)
Definition dirty_paths_with_code (code : string) (output : list string)
    : list Path :=
  (fun line => Path_of (Py.str_slice_from line 3))
    <$> List.filter (fun line => String.eqb (first_char line) code) output.

(** A line with the characters from [start_col] up to [end_col]
    (zero-based, the end excluded) replaced by [replacement]. *)
Definition edit_line (l : string) (start_col end_col : nat) (replacement : string)
    : string :=
  String.append (substring 0 start_col l)
    (String.append replacement
       (substring end_col (String.length l - end_col) l)).

(** Every path in the set of modified files names a file without a
    carriage return. *)
Definition written_without_cr (st : fix_state) : Prop :=
  forall p, p ∈ st_modified st ->
    exists content, st_disk st !! p = Some content
                    /\ char_free Py.CR content = true.

(** *** Further scenarios *)

(** The file of the first scenario with [foo] replaced on line 2 only. *)
Definition expected_second_line : string :=
  String.append "foo bar"
    (String.append Scenario.nl (String.append "baz qux" Scenario.nl)).

(** A handler and swaps for the examples: one added path, two removed
    paths of which one exists again after the restoration, and a [git rm]
    that exits with 1. *)
Module Sample.

Definition handler : BaselineHandler :=
  {| _base_commit := "main";
     _dirty_paths_by_status := Some ∅;
     status := {| added := [MkPath "new.txt"]; modified := [];
                  removed := [MkPath "gone.txt"; MkPath "back.txt"];
                  unmerged := [] |} |}.

Definition swap (block : option string) : context_oracle :=
  {| ctx_git_status := TimedOut;
     write_tree := Finished (Exited 0 "4b825dc6" EmptyString);
     unlink := fun _ _ => NotFound;
     checkout_baseline := Finished (Exited 0 EmptyString EmptyString);
     body := block;
     checkout_restore := Finished (Exited 0 EmptyString EmptyString);
     exists_ := fun p => String.eqb (str_of_path p) "back.txt";
     git_rm := Finished (Exited 1 EmptyString EmptyString) |}.

End Sample.

(** * Properties of the patch engine *)

Section PatchEngine.

Variable E : regex_engine.

(** In a dry run the loop state never leaves its initial value, and each
    iteration is decided by the fix computed on the untouched disk. *)
Lemma apply_one_dry (fs : disk) (m : RuleMatch) :
  apply_one E true (initial_state fs) m =
  match compute_fix E fs m (fresh_offsets m) with
  | None => Skipped (initial_state fs)
  | Some (inl e) => Failed (initial_state fs) e
  | Some (inr (fixobj, _)) =>
      Applied (initial_state fs) (set_fixed_lines m (fixed_lines fixobj))
  end.
Proof.
  unfold apply_one, retrieve_offsets, initial_state; simpl.
  rewrite lookup_empty. unfold track_active_line; simpl.
  rewrite bool_decide_true by reflexivity.
  fold (fresh_offsets m).
  destruct (compute_fix E fs m (fresh_offsets m)) as [[e|[fixobj off]]|];
    reflexivity.
Qed.

Lemma apply_matches_dry (fs : disk) (ms : list RuleMatch) :
  (apply_matches E true (initial_state fs) ms).1.1 = initial_state fs
  /\ ((apply_matches E true (initial_state fs) ms).2 = None ->
      (apply_matches E true (initial_state fs) ms).1.2 = preview E fs <$> ms).
Proof.
  induction ms as [|m ms [IHst IHout]]; simpl; [done|].
  rewrite apply_one_dry. unfold preview.
  destruct (compute_fix E fs m (fresh_offsets m)) as [[e|[fixobj off]]|]; simpl.
  - done.
  - destruct (apply_matches E true (initial_state fs) ms) as [[st out] err].
    simpl in *. split; [done|]. intros ->. by rewrite IHout.
  - destruct (apply_matches E true (initial_state fs) ms) as [[st out] err].
    simpl in *. split; [done|]. intros ->. by rewrite IHout.
Qed.

Lemma apply_rules_dry (fs : disk) (by_rule : list (string * list RuleMatch)) :
  (apply_rules E true (initial_state fs) by_rule).1.1 = initial_state fs
  /\ ((apply_rules E true (initial_state fs) by_rule).2 = None ->
      (apply_rules E true (initial_state fs) by_rule).1.2
      = preview_all E fs by_rule).
Proof.
  unfold preview_all.
  induction by_rule as [|[rule ms] rest [IHst IHout]]; simpl; [done|].
  destruct (apply_matches_dry fs ms) as [Hst Hout].
  destruct (apply_matches E true (initial_state fs) ms) as [[st out] [e|]];
    simpl in *; subst st.
  - done.
  - destruct (apply_rules E true (initial_state fs) rest) as [[st' out'] err].
    simpl in *. split; [done|]. intros ->. by rewrite Hout, IHout.
Qed.

Lemma dry_run_keeps_state (fs : disk)
    (by_rule : list (string * list RuleMatch)) :
  st_disk (run_state (apply_fixes E fs by_rule true)) = fs
  /\ st_modified (run_state (apply_fixes E fs by_rule true)) = ∅.
Proof.
  unfold apply_fixes.
  destruct (apply_rules_dry fs by_rule) as [Hst _].
  destruct (apply_rules E true (initial_state fs) by_rule) as [[st out] err].
  simpl in *. by subst st.
Qed.

(** In a dry run that meets no error, every match record comes out with
    its own fields and, when it carries a fix, with the lines of that fix
    under [fixed_lines]. *)
Lemma apply_matches_dry_records (fs : disk) (ms : list RuleMatch) :
  (apply_matches E true (initial_state fs) ms).2 = None ->
  Forall2
    (fun m m' =>
       path m' = path m /\ start m' = start m /\ end_ m' = end_ m
       /\ fix_ m' = fix_ m /\ fix_regex m' = fix_regex m
       /\ match compute_fix E fs m (fresh_offsets m) with
          | Some (inr (fixobj, _)) =>
              extra_fixed_lines m' = Some (fixed_lines fixobj)
          | Some (inl _) => False
          | None => extra_fixed_lines m' = extra_fixed_lines m
          end)
    ms (apply_matches E true (initial_state fs) ms).1.2.
Proof.
  induction ms as [|m ms IH]; simpl; [constructor|].
  rewrite apply_one_dry.
  destruct (compute_fix E fs m (fresh_offsets m)) as [[e|[fixobj off]]|] eqn:Hfix;
    simpl; [discriminate| |];
    destruct (apply_matches E true (initial_state fs) ms) as [[st out] err];
    simpl in *; intros ->; (constructor; [|by apply IH]);
    rewrite Hfix; by repeat split.
Qed.

Lemma apply_rules_dry_records (fs : disk)
    (by_rule : list (string * list RuleMatch)) :
  (apply_rules E true (initial_state fs) by_rule).2 = None ->
  Forall2
    (fun rule_in rule_out : string * list RuleMatch =>
       rule_out.1 = rule_in.1
       /\ Forall2
            (fun m m' =>
               path m' = path m /\ start m' = start m /\ end_ m' = end_ m
               /\ fix_ m' = fix_ m /\ fix_regex m' = fix_regex m
               /\ match compute_fix E fs m (fresh_offsets m) with
                  | Some (inr (fixobj, _)) =>
                      extra_fixed_lines m' = Some (fixed_lines fixobj)
                  | Some (inl _) => False
                  | None => extra_fixed_lines m' = extra_fixed_lines m
                  end)
            rule_in.2 rule_out.2)
    by_rule (apply_rules E true (initial_state fs) by_rule).1.2.
Proof.
  induction by_rule as [|[rule ms] rest IH]; simpl; [constructor|].
  pose proof (apply_matches_dry_records fs ms) as Hms.
  destruct (apply_matches_dry fs ms) as [Hst _].
  destruct (apply_matches E true (initial_state fs) ms) as [[st out] [e|]];
    simpl in *; [discriminate|]. subst st.
  destruct (apply_rules E true (initial_state fs) rest) as [[st' out'] err].
  simpl in *. intros ->. constructor; [|by apply IH]. split; [done|by apply Hms].
Qed.

(** C7: with dry-run enabled, [apply_fixes] leaves the disk exactly as it
    found it and counts no file as modified, whatever the match records
    carry and whether the call returns or raises.  When it returns, the
    mapping has the rules it had, each with as many match records; every
    record keeps its path, its positions and its directives; a record that
    carries a fix has under [fixed_lines] the lines that fix computes on
    the untouched disk with fresh offsets, and a record without a fix has
    there what it had; no fix has failed. *)
Theorem dry_run_leaves_disk_untouched (fs : disk)
    (by_rule : list (string * list RuleMatch)) :
  st_disk (run_state (apply_fixes E fs by_rule true)) = fs
  /\ st_modified (run_state (apply_fixes E fs by_rule true)) = ∅
  /\ (forall v, returned (apply_fixes E fs by_rule true) = Some v ->
      Forall2
        (fun rule_in rule_out : string * list RuleMatch =>
           rule_out.1 = rule_in.1
           /\ Forall2
                (fun m m' =>
                   path m' = path m /\ start m' = start m /\ end_ m' = end_ m
                   /\ fix_ m' = fix_ m /\ fix_regex m' = fix_regex m
                   /\ match compute_fix E fs m (fresh_offsets m) with
                      | Some (inr (fixobj, _)) =>
                          extra_fixed_lines m' = Some (fixed_lines fixobj)
                      | Some (inl _) => False
                      | None => extra_fixed_lines m' = extra_fixed_lines m
                      end)
                rule_in.2 rule_out.2)
        by_rule (run_matches (apply_fixes E fs by_rule true))).
Proof.
  unfold apply_fixes, returned.
  destruct (apply_rules_dry fs by_rule) as [Hst _].
  pose proof (apply_rules_dry_records fs by_rule) as Hout.
  destruct (apply_rules E true (initial_state fs) by_rule) as [[st out] err].
  simpl in *. subst st. repeat split.
  intros v Hv. destruct err; [discriminate|]. by apply Hout.
Qed.

(** The loop body reaches its [continue] exactly on a match record
    without a fix directive. *)
Lemma compute_fix_None (fs : disk) (m : RuleMatch) (fo : FileOffsets) :
  compute_fix E fs m fo = None <-> has_directive m = false.
Proof.
  unfold compute_fix, has_directive.
  destruct (truthy_opt (fix_ m)) as [f|].
  - destruct (_basic_fix fs m fo f); split; discriminate.
  - destruct (truthy_fix_regex (fix_regex m)) as [d|]; [|done].
    split; [|discriminate].
    destruct (truthy_opt (regex d)), (truthy_opt (replacement d)); try discriminate.
    destruct (int_of_count _) as [[]|n]; try discriminate.
    destruct (_regex_replace _ _ _ _ _ _ _); discriminate.
Qed.

(** What one iteration does to the disk and to the set of modified files
    when dry-run is off. *)
Lemma apply_one_wet (st : fix_state) (m : RuleMatch) :
  match apply_one E false st m with
  | Skipped st' =>
      has_directive m = false
      /\ st_disk st' = st_disk st /\ st_modified st' = st_modified st
  | Applied st' m' =>
      has_directive m = true /\ m' = m
      /\ st_modified st' = {[path m]} ∪ st_modified st
      /\ (forall p, p ≠ path m -> st_disk st' !! p = st_disk st !! p)
  | Failed st' _ =>
      st_disk st' = st_disk st /\ st_modified st' = st_modified st
  end.
Proof.
  unfold apply_one.
  destruct (retrieve_offsets (st_offsets st) m) as [fo0 aliased].
  destruct (compute_fix E (st_disk st) m (track_active_line fo0 m))
    as [[e|[fixobj off]]|] eqn:Hfix; simpl.
  - done.
  - repeat split.
    + destruct (has_directive m) eqn:Hd; [done|].
      apply compute_fix_None with (fs := st_disk st)
        (fo := track_active_line fo0 m) in Hd. congruence.
    + intros p Hp. unfold _write_contents. by rewrite lookup_insert_ne.
  - repeat split. by apply compute_fix_None in Hfix.
Qed.

Lemma apply_matches_wet (ms : list RuleMatch) (st : fix_state) :
  (forall p, p ∉ st_modified (apply_matches E false st ms).1.1 ->
     st_disk (apply_matches E false st ms).1.1 !! p = st_disk st !! p)
  /\ st_modified st ⊆ st_modified (apply_matches E false st ms).1.1
  /\ ((apply_matches E false st ms).2 = None ->
      st_modified (apply_matches E false st ms).1.1
      = list_to_set (path <$> List.filter has_directive ms) ∪ st_modified st).
Proof.
  revert st. induction ms as [|m ms IH]; intros st; simpl.
  - repeat split; [done|]. intros _. set_solver.
  - pose proof (apply_one_wet st m) as H1.
    destruct (apply_one E false st m) as [st1|st1 m1|st1 e].
    + destruct H1 as (Hd & Hdisk & Hmod). rewrite Hd.
      destruct (IH st1) as (IHdisk & IHsub & IHset).
      destruct (apply_matches E false st1 ms) as [[st2 out] err]; simpl in *.
      rewrite <- Hdisk, <- Hmod. done.
    + destruct H1 as (Hd & -> & Hmod & Hdisk). rewrite Hd.
      destruct (IH st1) as (IHdisk & IHsub & IHset).
      destruct (apply_matches E false st1 ms) as [[st2 out] err]; simpl in *.
      rewrite Hmod in IHsub, IHset. repeat split.
      * intros p Hp. rewrite IHdisk by done. apply Hdisk. set_solver.
      * set_solver.
      * intros Herr. rewrite IHset by done. set_solver.
    + destruct H1 as (Hdisk & Hmod). simpl. rewrite Hmod, Hdisk.
      split; [done|]. split; [done|]. discriminate.
Qed.

Lemma apply_rules_wet (by_rule : list (string * list RuleMatch)) (st : fix_state) :
  (forall p, p ∉ st_modified (apply_rules E false st by_rule).1.1 ->
     st_disk (apply_rules E false st by_rule).1.1 !! p = st_disk st !! p)
  /\ st_modified st ⊆ st_modified (apply_rules E false st by_rule).1.1
  /\ ((apply_rules E false st by_rule).2 = None ->
      st_modified (apply_rules E false st by_rule).1.1
      = list_to_set (path <$> List.filter has_directive (all_matches by_rule))
          ∪ st_modified st).
Proof.
  revert st. induction by_rule as [|[rule ms] rest IH]; intros st; simpl.
  - repeat split; [done|]. intros _. unfold all_matches. simpl. set_solver.
  - destruct (apply_matches_wet ms st) as (Hdisk & Hsub & Hset).
    destruct (apply_matches E false st ms) as [[st1 out] [e|]]; simpl in *.
    + repeat split; done.
    + destruct (IH st1) as (IHdisk & IHsub & IHset).
      destruct (apply_rules E false st1 rest) as [[st2 out'] err]; simpl in *.
      repeat split.
      * intros p Hp. rewrite IHdisk by done. apply Hdisk. set_solver.
      * set_solver.
      * intros Herr. rewrite IHset, Hset by done.
        unfold all_matches. simpl. rewrite List.filter_app, fmap_app.
        rewrite list_to_set_app_L. set_solver.
Qed.

(** The summary by the number of modified files. *)
Lemma report_by_size (modified_files : gset string) :
  report modified_files
  = match size modified_files with
    | 0%nat => NoFilesModified
    | 1%nat => SuccessfullyModified 1 ""
    | S (S n) => SuccessfullyModified (S (S n)) "s"
    end.
Proof.
  unfold report. cbv zeta.
  destruct (size modified_files) as [|[|n]]; repeat case_bool_decide;
    done || lia.
Qed.

(** C8, as amended: [apply_fixes] returns [None]; the set of distinct
    paths it wrote stays inside the call.  At its end the call logs that
    no files were modified when the set is empty, and otherwise the number
    of paths in the set, with the plural ending when there is more than
    one.  When the call returns, the set holds the paths of the match
    records that carry a fix directive, or nothing in a dry run, and every
    file outside the set keeps its content. *)
Theorem apply_fixes_returns_none_and_reports_count (fs : disk)
    (by_rule : list (string * list RuleMatch)) (dryrun : bool) :
  (forall v, returned (apply_fixes E fs by_rule dryrun) = Some v -> v = PyNone)
  /\ (forall s, logged_summary (apply_fixes E fs by_rule dryrun) = Some s ->
        s = match size (st_modified (run_state (apply_fixes E fs by_rule dryrun))) with
            | 0%nat => NoFilesModified
            | 1%nat => SuccessfullyModified 1 ""
            | S (S n) => SuccessfullyModified (S (S n)) "s"
            end)
  /\ (forall v, returned (apply_fixes E fs by_rule dryrun) = Some v ->
        st_modified (run_state (apply_fixes E fs by_rule dryrun))
        = if dryrun then ∅
          else list_to_set (path <$> List.filter has_directive (all_matches by_rule)))
  /\ (forall p, p ∉ st_modified (run_state (apply_fixes E fs by_rule dryrun)) ->
        st_disk (run_state (apply_fixes E fs by_rule dryrun)) !! p = fs !! p).
Proof.
  destruct dryrun.
  - destruct (dry_run_keeps_state fs by_rule) as (Hdisk & Hmod).
    unfold returned, logged_summary in *. unfold apply_fixes in *.
    destruct (apply_rules E true (initial_state fs) by_rule) as [[st out] err].
    simpl in *. repeat split.
    + intros v Hv. destruct err; congruence.
    + intros s Hs. destruct err; [discriminate|]. injection Hs as <-.
      apply report_by_size.
    + done.
    + intros p _. by rewrite Hdisk.
  - unfold returned, logged_summary, apply_fixes.
    destruct (apply_rules_wet by_rule (initial_state fs)) as (Hdisk & _ & Hset).
    destruct (apply_rules E false (initial_state fs) by_rule) as [[st out] err].
    simpl in *. repeat split.
    + intros v Hv. destruct err; congruence.
    + intros s Hs. destruct err; [discriminate|]. injection Hs as <-.
      apply report_by_size.
    + intros v Hv. destruct err; [discriminate|]. rewrite Hset by done. set_solver.
    + done.
Qed.

(** C5, as amended: on the file [a.txt] of the scenario, the two literal
    fixes placed where [foo] stands (line 1 from column 1 to the exclusive
    end column 4, line 2 from column 5 to the exclusive end column 8, both
    replaced by [qux]) leave the expected text on the disk, whether the
    two matches come under one rule or under two. *)
Theorem scenario_with_columns_of_foo (rule rule' : string) :
  st_disk (run_state
    (apply_fixes E Scenario.a_txt [(rule, Scenario.where_foo_stands)] false))
    !! "a.txt" = Some Scenario.expected
  /\ st_disk (run_state
       (apply_fixes E Scenario.a_txt
          [(rule, [Scenario.literal_match "a.txt" 1 1 1 4 "qux"]);
           (rule', [Scenario.literal_match "a.txt" 2 5 2 8 "qux"])] false))
       !! "a.txt" = Some Scenario.expected.
Proof. split; vm_compute; reflexivity. Qed.

(** C4, at an input that breaks it: three fixes on one file, each putting
    two lines in place of one.  After the second fix the file has grown by
    two lines but [line_offset] holds 1, the growth of the second edit
    alone, because [_basic_fix] assigns the difference instead of adding
    it; the third fix is therefore applied one line too high and rewrites
    the line the second fix produced, leaving [c] as it was. *)
Theorem line_offset_holds_last_edit_only (rule : string) :
  line_offset <$>
    (st_offsets (run_state
       (apply_fixes E Scenario.three_lines
          [(rule, take 2 Scenario.growing_fixes)] false)) !! "f.txt") = Some 1
  /\ line_count
       (st_disk (run_state
          (apply_fixes E Scenario.three_lines
             [(rule, take 2 Scenario.growing_fixes)] false))) "f.txt"
     - line_count Scenario.three_lines "f.txt" = 2
  /\ st_disk (run_state
       (apply_fixes E Scenario.three_lines
          [(rule, Scenario.growing_fixes)] false)) !! "f.txt"
     = Some (Py.join_with Py.LF ["x"; "y"; "x"; "x"; "y"; "c"; ""]).
Proof. repeat split; vm_compute; reflexivity. Qed.

(** Slices with bounds inside the list are [take] and [drop]. *)
Lemma slice_to_take {A} (l : list A) (k : Z) :
  0 <= k <= Py.len l -> Py.slice_to l k = take (Z.to_nat k) l.
Proof.
  intros Hk. unfold Py.slice_to, Py.clamp, Py.len in *.
  destruct (Z.ltb_spec k 0); [lia|]. f_equal. lia.
Qed.

Lemma slice_from_drop {A} (l : list A) (k : Z) :
  0 <= k <= Py.len l -> Py.slice_from l k = drop (Z.to_nat k) l.
Proof.
  intros Hk. unfold Py.slice_from, Py.clamp, Py.len in *.
  destruct (Z.ltb_spec k 0); [lia|]. f_equal. lia.
Qed.

Lemma slice_take_drop {A} (l : list A) (a b : Z) :
  0 <= a <= b -> b <= Py.len l ->
  Py.slice l a b = take (Z.to_nat (b - a)) (drop (Z.to_nat a) l).
Proof.
  intros Ha Hb. unfold Py.slice, Py.clamp, Py.len in *.
  destruct (Z.ltb_spec a 0); [lia|]. destruct (Z.ltb_spec b 0); [lia|].
  f_equal; [|f_equal]; lia.
Qed.

Lemma substring_whole (s : string) : substring 0 (String.length s) s = s.
Proof. induction s as [|a s IH]; simpl; [done|]. by rewrite IH. Qed.

(** Bounded to one match, [re.sub] replaces the leftmost match only. *)
Lemma splice_first (pat repl text : string) :
  Re.splice E pat repl text 0 (Re.bounded 1 (re_finditer E pat text))
  = replace_first E pat repl text.
Proof.
  unfold Re.bounded, replace_first. simpl.
  destruct (re_finditer E pat text) as [|[b e] ms]; simpl.
  - rewrite Nat.sub_0_r. apply substring_whole.
  - by rewrite Nat.sub_0_r.
Qed.

(** What a regex fix does on the lines its offsets select, which are the
    lines of the match when the offsets are right (as they are for the
    first fix of a pass on a file, whose offsets are zero).  For a match
    record whose directive is a regex fix (no literal fix, a non-empty
    pattern and replacement that compile) on a file whose lines contain
    the selected span, the fix rebuilds the file from the lines before the
    span as they were, the lines of the substituted span, and the lines
    after the span as they were.  The substitution runs over the span's
    lines joined by newlines: with a count of 1 it replaces the leftmost
    match and nothing else, with a count that is 0 or absent it replaces
    every match. *)
Lemma regex_fix_on_selected_span (fs : disk) (m : RuleMatch) (fo : FileOffsets)
    (d : FixRegex) (re repl : string) (lines : list string) :
  truthy_opt (fix_ m) = None ->
  fix_regex m = Some d ->
  truthy_opt (regex d) = Some re ->
  truthy_opt (replacement d) = Some repl ->
  re_compiles E re repl = true ->
  _get_lines fs (path m) = inr lines ->
  0 <= line (start m) - 1 + line_offset fo <= line (end_ m) - 1 + line_offset fo ->
  line (end_ m) - 1 + line_offset fo < Py.len lines ->
  let sl := Z.to_nat (line (start m) - 1 + line_offset fo) in
  let el := Z.to_nat (line (end_ m) - 1 + line_offset fo) in
  let span := take (S el - sl) (drop sl lines) in
  let rebuilt := fun substituted : string =>
    Some (inr ({| fixed_contents :=
                    Py.join_with Py.LF
                      (take sl lines ++ Py.splitlines substituted
                         ++ drop (S el) lines);
                  fixed_lines := Py.splitlines substituted |},
               {| line_offset :=
                    Py.len (Py.splitlines substituted) - Py.len span;
                  col_offset := col_offset fo;
                  active_line := active_line fo |})) in
  (count d = Some (CountInt 1) ->
     compute_fix E fs m fo
     = rebuilt (replace_first E re repl (Py.join_with Py.LF span)))
  /\ (count d = None \/ count d = Some (CountInt 0) ->
     compute_fix E fs m fo
     = rebuilt (replace_all E re repl (Py.join_with Py.LF span))).
Proof.
  intros Hfix Hd Hre Hrepl Hcomp Hlines Hsl Hel sl el span rebuilt.
  assert (Hdict : truthy_fix_regex (fix_regex m) = Some d).
  { rewrite Hd. unfold truthy_fix_regex.
    destruct (regex d); [|discriminate]. reflexivity. }
  assert (Hrun : forall n substituted,
    Re.sub E re repl (Py.join_with Py.LF span) n = Some substituted ->
    _regex_replace E fs m fo re repl n
    = inr ({| fixed_contents :=
                Py.join_with Py.LF
                  (take sl lines ++ Py.splitlines substituted ++ drop (S el) lines);
              fixed_lines := Py.splitlines substituted |},
           {| line_offset := Py.len (Py.splitlines substituted) - Py.len span;
              col_offset := col_offset fo;
              active_line := active_line fo |})).
  { intros n substituted Hsub. unfold _regex_replace, _get_match_context.
    rewrite Hlines. simpl.
    rewrite slice_to_take by (unfold Py.len in *; lia).
    rewrite slice_from_drop by (unfold Py.len in *; lia).
    rewrite slice_take_drop by (unfold Py.len in *; lia).
    replace (Z.to_nat (line (end_ m) - 1 + line_offset fo + 1
                       - (line (start m) - 1 + line_offset fo)))
      with (S el - sl)%nat by (subst sl el; lia).
    replace (Z.to_nat (line (end_ m) - 1 + line_offset fo + 1))
      with (S el) by (subst el; lia).
    fold sl. fold span. rewrite Hsub. reflexivity. }
  split.
  - intros Hcount. unfold compute_fix.
    rewrite Hfix, Hdict, Hre, Hrepl, Hcount. simpl.
    erewrite Hrun; [reflexivity|].
    unfold Re.sub. rewrite Hcomp. by rewrite splice_first.
  - intros Hcount. unfold compute_fix.
    rewrite Hfix, Hdict, Hre, Hrepl.
    assert (Hn : int_of_count (default (CountInt 0) (count d)) = inr 0)
      by (destruct Hcount as [-> | ->]; reflexivity).
    rewrite Hn. erewrite Hrun; [reflexivity|].
    unfold Re.sub. rewrite Hcomp. reflexivity.
Qed.

End PatchEngine.

(** At a concrete input: the second line of a three-line file holds the
    pattern three times; the match spans that line only. *)
Lemma regex_fix_on_selected_span_example :
  compute_fix Re.literal Scenario.three_times
    (Scenario.regex_match "r.txt" 2 1 2 12 (Scenario.directive (Some (CountInt 1))))
    {| line_offset := 0; col_offset := 0; active_line := 2 |}
  = Some (inr ({| fixed_contents :=
                    Py.join_with Py.LF ["foo"; "qux foo foo"; "foo"];
                  fixed_lines := ["qux foo foo"] |},
               {| line_offset := 0; col_offset := 0; active_line := 2 |}))
  /\ compute_fix Re.literal Scenario.three_times
       (Scenario.regex_match "r.txt" 2 1 2 12 (Scenario.directive None))
       {| line_offset := 0; col_offset := 0; active_line := 2 |}
     = Some (inr ({| fixed_contents :=
                       Py.join_with Py.LF ["foo"; "qux qux qux"; "foo"];
                     fixed_lines := ["qux qux qux"] |},
                  {| line_offset := 0; col_offset := 0; active_line := 2 |})).
Proof.
  split.
  - refine (proj1 (regex_fix_on_selected_span Re.literal Scenario.three_times
      (Scenario.regex_match "r.txt" 2 1 2 12 (Scenario.directive (Some (CountInt 1))))
      {| line_offset := 0; col_offset := 0; active_line := 2 |}
      (Scenario.directive (Some (CountInt 1))) "foo" "qux"
      ["foo"; "foo foo foo"; "foo"]
      eq_refl eq_refl eq_refl eq_refl eq_refl eq_refl _ _) eq_refl);
      vm_compute; intuition congruence.
  - refine (proj2 (regex_fix_on_selected_span Re.literal Scenario.three_times
      (Scenario.regex_match "r.txt" 2 1 2 12 (Scenario.directive None))
      {| line_offset := 0; col_offset := 0; active_line := 2 |}
      (Scenario.directive None) "foo" "qux"
      ["foo"; "foo foo foo"; "foo"]
      eq_refl eq_refl eq_refl eq_refl eq_refl eq_refl _ _) (or_introl eq_refl));
      vm_compute; intuition congruence.
Defined.

(** C6, at an input that breaks it: three regex fixes on one file, one
    on each line, each with count 1 and each putting two lines in place of
    one.  After the second fix the file has grown by two lines but
    [line_offset] holds 1, the growth of the second edit alone, because
    [_regex_replace] assigns the difference instead of adding it.  The
    third fix therefore runs over the line above its match: it rewrites
    [o], a line the second fix produced and which is outside the match,
    and the first [o] of the third [foo], the line of the match, is not
    replaced.  The first two fixes, whose offsets are right, replace the
    first [o] of their line and no other. *)
Theorem regex_fix_lands_outside_its_match (rule : string) :
  _get_lines Scenario.three_foo "g.txt" = inr ["foo"; "foo"; "foo"; ""]
  /\ _get_lines
       (st_disk (run_state
          (apply_fixes Re.literal Scenario.three_foo
             [(rule, take 2 Scenario.growing_regex_fixes)] false))) "g.txt"
     = inr ["f0"; "o"; "f0"; "o"; "foo"; ""]
  /\ line_offset <$>
       (st_offsets (run_state
          (apply_fixes Re.literal Scenario.three_foo
             [(rule, take 2 Scenario.growing_regex_fixes)] false)) !! "g.txt")
     = Some 1
  /\ _get_lines
       (st_disk (run_state
          (apply_fixes Re.literal Scenario.three_foo
             [(rule, Scenario.growing_regex_fixes)] false))) "g.txt"
     = inr ["f0"; "o"; "f0"; "0"; "foo"; ""].
Proof. repeat split; vm_compute; reflexivity. Qed.

(** C5 as stated fails: with the columns the scenario gives (1 to 3 on
    line 1, 6 to 8 on line 2) the file does not end up with the expected
    text, whether the second number is read as the record's exclusive end
    column or as the last column of the match; [foo] on line 2 starts at
    column 5, so a match that starts at column 6 keeps the [f]. *)
Lemma scenario_as_stated_misses_expected :
  st_disk (run_state
    (apply_fixes Re.literal Scenario.a_txt
       [("rule", Scenario.as_stated_exclusive)] false)) !! "a.txt"
  = Some (Py.join_with Py.LF ["quxo bar"; "baz fqux"; ""])
  /\ st_disk (run_state
       (apply_fixes Re.literal Scenario.a_txt
          [("rule", Scenario.as_stated_inclusive)] false)) !! "a.txt"
     = Some (Py.join_with Py.LF ["qux bar"; "baz fqux"; ""])
  /\ Py.join_with Py.LF ["quxo bar"; "baz fqux"; ""] <> Scenario.expected
  /\ Py.join_with Py.LF ["qux bar"; "baz fqux"; ""] <> Scenario.expected.
Proof. repeat split; vm_compute; congruence. Qed.

(** C8 as stated fails: the call that fixes [a.txt] returns [None], not
    the set that holds [a.txt]. *)
Lemma apply_fixes_returns_no_path_set :
  st_modified (run_state
    (apply_fixes Re.literal Scenario.a_txt
       [("rule", Scenario.where_foo_stands)] false)) = {["a.txt"]}
  /\ returned
       (apply_fixes Re.literal Scenario.a_txt
          [("rule", Scenario.where_foo_stands)] false) = Some PyNone
  /\ returned
       (apply_fixes Re.literal Scenario.a_txt
          [("rule", Scenario.where_foo_stands)] false)
     <> Some (PyPathSet {["a.txt"]}).
Proof. repeat split; vm_compute; congruence. Qed.

(** * Properties of the baseline snapshot manager *)

Section StatusSet.

Variable is_symlink_to_dir : string -> bool.

Lemma renamed_code (code : string) :
  String.eqb (first_char code) StatusCode.Renamed = true ->
  exists tail, code = String "R" tail.
Proof.
  destruct code as [|a tail]; [discriminate|].
  intros H. apply String.eqb_eq in H. simpl in H. injection H as ->.
  by exists tail.
Qed.

Lemma rstrip_ws_keeps (a : ascii) (s : string) :
  is_space a = false -> rstrip_ws (String a s) <> EmptyString.
Proof. intros Ha. simpl. destruct (rstrip_ws s); [by rewrite Ha|done]. Qed.

(** On an entry it classifies, one pass of the loop body does what the
    specification says and trims exactly the fields of that entry. *)
Lemma iteration_on_classified (acc : GitStatus) (e : diff_entry)
    (rest : list string) :
  classified is_symlink_to_dir e = true ->
  status_iteration is_symlink_to_dir acc (fields e ++ rest)
  = Trimmed (classify_entry acc e) rest.
Proof.
  destruct e as [code fname|code old new]; simpl; intros H.
  - repeat (apply andb_prop in H as [H ?]).
    unfold status_iteration. simpl.
    repeat match goal with
           | Hn : negb _ = true |- _ => apply negb_true_iff in Hn
           end.
    rewrite H. simpl.
    repeat match goal with Hn : _ = false |- _ => rewrite Hn; clear Hn end.
    simpl. reflexivity.
  - apply andb_prop in H as [H Hsym]. apply negb_true_iff in Hsym.
    destruct (renamed_code code H) as [tail ->].
    unfold status_iteration.
    change (Py.index (String "R" tail :: old :: new :: rest) 0)
      with (Some (String "R" tail)).
    change (Py.index (String "R" tail :: old :: new :: rest) 1) with (Some old).
    change (Py.index (String "R" tail :: old :: new :: rest) 2) with (Some new).
    cbv iota beta.
    assert (Hblank : Py.truthy (strip_ws (String "R" tail)) = true).
    { unfold strip_ws. simpl lstrip_ws.
      pose proof (rstrip_ws_keeps "R" tail eq_refl) as Hne.
      destruct (rstrip_ws (String "R" tail)); [done|reflexivity]. }
    rewrite Hblank, Hsym. simpl. reflexivity.
Qed.

Lemma loop_on_classified (es : list diff_entry) :
  forall (fuel : nat) (acc : GitStatus),
  forallb (classified is_symlink_to_dir) es = true ->
  (length es <= fuel)%nat ->
  status_loop fuel is_symlink_to_dir acc (concat (fields <$> es))
  = Done (fold_left classify_entry es acc).
Proof.
  induction es as [|e es IH]; intros fuel acc Hes Hfuel.
  - by destruct fuel.
  - simpl in Hes. apply andb_prop in Hes as [He Hes].
    destruct fuel as [|fuel]; [simpl in Hfuel; lia|].
    rewrite fmap_cons. simpl concat.
    pose proof (iteration_on_classified acc e (concat (fields <$> es)) He) as Hit.
    destruct e; simpl in *; rewrite Hit; apply IH; auto; lia.
Qed.

Lemma classify_keeps (es : list diff_entry) (acc : GitStatus) (p : Path) :
  (p ∈ removed acc -> p ∈ removed (fold_left classify_entry es acc))
  /\ (p ∈ added acc -> p ∈ added (fold_left classify_entry es acc)).
Proof.
  revert acc. induction es as [|e es IH]; intros acc; simpl; [done|].
  split; intros Hp; apply IH; destruct e; simpl;
    repeat case_match; set_solver.
Qed.

Lemma classify_renames (es : list diff_entry) (acc : GitStatus)
    (code old new : string) :
  Rename code old new ∈ es ->
  Path_of old ∈ removed (fold_left classify_entry es acc)
  /\ Path_of new ∈ added (fold_left classify_entry es acc).
Proof.
  revert acc. induction es as [|e es IH]; intros acc Hin.
  - by apply elem_of_nil in Hin.
  - apply elem_of_cons in Hin as [<-|Hin]; [|by apply IH].
    simpl. split; apply classify_keeps; simpl; set_solver.
Qed.

Lemma classify_modified (es : list diff_entry) (acc : GitStatus) :
  modified (fold_left classify_entry es acc)
  = modified acc ++ paths_with_code StatusCode.Modified es.
Proof.
  revert acc. induction es as [|e es IH]; intros acc; simpl.
  - by rewrite app_nil_r.
  - rewrite IH. destruct e as [code fname|]; simpl; [|done].
    destruct (String.eqb code StatusCode.Modified); simpl; [|done].
    by rewrite <- app_assoc.
Qed.

(** On a list of entries the loop classifies (renames with a code that
    starts with R, other entries with a code that is not blank, not the
    untracked or ignored code, and no symbolic link to a directory among
    the paths; so no copy record), the status-set loop ends, and for every
    rename the old path is in the removed list and the new path in the
    added list.  The modified list holds the paths of the entries whose
    code is M and nothing else, so no rename puts a path there. *)
Lemma classified_renames_are_removed_and_added (es : list diff_entry) (fuel : nat) :
  forallb (classified is_symlink_to_dir) es = true ->
  (length es <= fuel)%nat ->
  exists st,
    status_loop fuel is_symlink_to_dir empty_status (concat (fields <$> es)) = Done st
    /\ (forall code old new, Rename code old new ∈ es ->
          Path_of old ∈ removed st /\ Path_of new ∈ added st)
    /\ modified st = paths_with_code StatusCode.Modified es.
Proof.
  intros Hes Hfuel. eexists. split; [by apply loop_on_classified|]. split.
  - intros code old new Hin. by eapply classify_renames.
  - by rewrite classify_modified.
Qed.

(** A pass that ends in [continue] is repeated for ever: the loop test
    sees the same list again. *)
Lemma loop_stuck_on_continue (acc : GitStatus) (status_output : list string) :
  status_output <> [] ->
  status_iteration is_symlink_to_dir acc status_output = Continue ->
  forall fuel, status_loop fuel is_symlink_to_dir acc status_output = OutOfFuel.
Proof.
  intros Hne Hit fuel. induction fuel as [|fuel IH]; simpl.
  - by destruct status_output.
  - destruct status_output; [done|]. by rewrite Hit.
Qed.

End StatusSet.

(** At a concrete input: a rename followed by a modification. *)
Lemma classified_renames_are_removed_and_added_example :
  exists st,
    status_loop 2 (fun _ => false) empty_status
      (concat (fields <$> [Rename "R100" "old.txt" "new.txt"; Plain "M" "m.txt"]))
    = Done st
    /\ (forall code old new,
          Rename code old new ∈ [Rename "R100" "old.txt" "new.txt"; Plain "M" "m.txt"] ->
          Path_of old ∈ removed st /\ Path_of new ∈ added st)
    /\ modified st
       = paths_with_code StatusCode.Modified
           [Rename "R100" "old.txt" "new.txt"; Plain "M" "m.txt"].
Proof.
  apply (classified_renames_are_removed_and_added (fun _ => false)
           [Rename "R100" "old.txt" "new.txt"; Plain "M" "m.txt"] 2).
  - reflexivity.
  - apply le_n.
Defined.

(** C9, at an input that breaks it: the diff lists a copy and then a
    rename of [a.txt].  The command asks for copy records (its filter
    names C), and a copy record has two paths as a rename record has, but
    the loop takes the second path only for a code that starts with R.  It
    reads the copy as a record with one path, then takes [copy.txt] for a
    code and [R100] for its path, then [a.txt] for a code and
    [renamed.txt] for its path: the loop ends with the four lists empty,
    so the old path of the rename is not in the removed list and the new
    path is not in the added list. *)
Theorem copy_record_hides_rename (fuel : nat) (base_commit : string) :
  zsplit Scenario.copy_then_rename
  = ["C100"; "a.txt"; "copy.txt"] ++ fields (Rename "R100" "a.txt" "renamed.txt")
  /\ _get_git_status (3 + fuel) base_commit
       (Finished (Exited 0 Scenario.copy_then_rename EmptyString))
       (fun _ => false)
     = Done {| added := []; modified := []; removed := []; unmerged := [] |}.
Proof.
  split; [vm_compute; reflexivity|].
  - unfold _get_git_status.
    change (subprocess_run true true true (git_diff_cmd base_commit)
              (Finished (Exited 0 Scenario.copy_then_rename EmptyString)))
      with (inr (A := git_error)
              {| returncode := 0;
                 stdout := Some Scenario.copy_then_rename;
                 stderr := Some EmptyString |}).
    cbv beta iota.
    change (zsplit (default EmptyString (Some Scenario.copy_then_rename)))
      with ["C100"; "a.txt"; "copy.txt"; "R100"; "a.txt"; "renamed.txt"].
    destruct fuel; reflexivity.
Qed.

(** C10, at inputs that break it: an entry whose code is blank, or is
    the untracked or the ignored code, or whose path is a symbolic link to
    a directory, is never consumed.  The pass ends in [continue] before
    the list is trimmed, so no amount of fuel ends the loop, and the
    construction of a handler on a diff that lists an added symbolic link
    to a directory never returns. *)
Theorem status_loop_never_ends_on_skipped_entry (fuel : nat) (acc : GitStatus)
    (fname : string) (rest : list string) :
  status_loop fuel (fun _ => false) acc (" " :: fname :: rest) = OutOfFuel
  /\ status_loop fuel (fun _ => false) acc
       (StatusCode.Untracked :: fname :: rest) = OutOfFuel
  /\ status_loop fuel (fun _ => false) acc
       (StatusCode.Ignored :: fname :: rest) = OutOfFuel
  /\ status_loop fuel (fun _ => true) acc
       (StatusCode.Added :: fname :: rest) = OutOfFuel
  /\ BaselineHandler__init__ fuel "main" Scenario.linked_directory = OutOfFuel.
Proof.
  repeat split; try (by apply loop_stuck_on_continue).
  unfold BaselineHandler__init__, _get_git_status. simpl.
  by rewrite loop_stuck_on_continue.
Qed.

(** A set of strings and a set of paths have no element in common. *)
Lemma overlapping_paths_empty (dirty_paths : gmap string (list Path))
    (st : GitStatus) :
  overlapping_paths dirty_paths st = ∅.
Proof.
  unfold overlapping_paths, untracked_paths, changed_paths.
  apply elem_of_equiv_empty_L. intros k Hk.
  apply elem_of_intersection in Hk as [Hu Hc].
  apply elem_of_list_to_set, list_elem_of_fmap in Hu as (p & -> & _).
  apply elem_of_list_to_set, list_elem_of_fmap in Hc as (q & Hq & _).
  discriminate.
Qed.

(** C3, at an input that breaks it: the untracked-path check compares the
    text of the untracked paths with path objects, which are never equal,
    so it raises on no input at all; the construction of a handler
    completes although [old.txt] is both untracked and in the removed list
    of the status set. *)
Theorem untracked_collision_goes_unnoticed :
  (forall base_commit dirty_paths st,
     _abort_on_conflicting_untracked_paths base_commit dirty_paths st = inr tt)
  /\ exists dirty_paths,
       BaselineHandler__init__ 1 "main" Scenario.clobbering
       = Done {| _base_commit := "main";
                 _dirty_paths_by_status := Some dirty_paths;
                 status := {| added := []; modified := [];
                              removed := [MkPath "old.txt"]; unmerged := [] |} |}
       /\ dirty_paths !! StatusCode.Untracked = Some [MkPath "old.txt"].
Proof.
  split.
  - intros base_commit dirty_paths st.
    unfold _abort_on_conflicting_untracked_paths.
    rewrite overlapping_paths_empty. by rewrite bool_decide_true.
  - eexists. split; vm_compute; reflexivity.
Qed.

(** ** The scoped swap *)

(** An element that satisfies [P] sits at one place only in a list whose
    other elements do not. *)
Lemma split_unique {A} (P : A -> bool) (l1 : list A) (x : A) (l2 pre : list A)
    (y : A) (post : list A) :
  l1 ++ x :: l2 = pre ++ y :: post ->
  P y = true ->
  Forall (fun a => P a = false) l1 ->
  Forall (fun a => P a = false) l2 ->
  pre = l1 /\ y = x /\ post = l2.
Proof.
  revert pre. induction l1 as [|a l1 IH]; intros pre Heq Hy H1 H2.
  - destruct pre as [|b pre]; simpl in Heq.
    + by injection Heq as -> ->.
    + injection Heq as -> ->. exfalso.
      rewrite Forall_forall in H2.
      specialize (H2 y). rewrite H2 in Hy; [done|]. set_solver.
  - apply Forall_cons in H1 as [Ha H1].
    destruct pre as [|b pre]; simpl in Heq.
    + injection Heq as <- _. congruence.
    + injection Heq as <- Heq.
      destruct (IH pre Heq Hy H1 H2) as (-> & -> & ->). done.
Qed.

Lemma not_among {A} (P : A -> bool) (l pre : list A) (y : A) (post : list A) :
  l = pre ++ y :: post -> P y = true -> Forall (fun a => P a = false) l -> False.
Proof.
  intros -> Hy Hl. rewrite Forall_forall in Hl.
  specialize (Hl y). rewrite Hl in Hy; [done|]. set_solver.
Qed.

Section Swap.

Variable self : BaselineHandler.
Variable o : context_oracle.

(** Nothing before the [try] touches the working tree. *)
Lemma record_tree_trace :
  Forall (fun ev => before_try ev = true) (record_tree self o).1.
Proof.
  unfold record_tree, run, bind, emit, lift, ret.
  repeat case_match; simplify_eq; simpl; repeat constructor.
Qed.

(** The deleting loop leaves only its own events, and when it ends
    without raising it has tried every path in order and failed on none. *)
Lemma unlink_added_shape (paths : list Path) (i : nat) :
  Forall (fun ev => deleting ev = true) (unlink_added (unlink o) i paths).1
  /\ ((unlink_added (unlink o) i paths).2 = inr tt ->
      unlink_attempts (unlink_added (unlink o) i paths).1 = paths
      /\ existsb is_unlink_failure (unlink_added (unlink o) i paths).1 = false).
Proof.
  revert i. induction paths as [|a rest IH]; intros i; simpl.
  - by repeat split.
  - specialize (IH (S i)).
    destruct (unlink o i a); unfold bind, emit, raise; simpl;
      destruct (unlink_added (unlink o) (S i) rest) as [t [e|[]]];
      simpl in *; destruct IH as [IHt IHr];
      (split; [repeat constructor; done|]); intros Hr; try discriminate;
      destruct (IHr eq_refl) as [-> ->]; done.
Qed.


Lemma remove_again_trace :
  Forall (fun ev => after_restore ev = true) (remove_again o (status self)).1
  /\ forall e tag, (remove_again o (status self)).2 = inl e -> e <> CallerError tag.
Proof.
  unfold remove_again, run, bind, emit, lift, ret, subprocess_run.
  repeat case_match; simplify_eq; simpl; split; repeat constructor;
    intros; congruence.
Qed.

(** The [finally] block starts with the restoration checkout; it ends
    without raising only when that checkout exits with 0, and it never
    raises the caller's exception. *)
Lemma swap_out_shape (current_tree : string) :
  exists t3,
    (swap_out self o current_tree).1
    = Checkout Restoration (strip_ws current_tree) (checkout_restore o) :: t3
    /\ Forall (fun ev => after_restore ev = true) t3
    /\ ((swap_out self o current_tree).2 = inr tt ->
        exists out err, checkout_restore o = Finished (Exited 0 out err))
    /\ (forall e tag, (swap_out self o current_tree).2 = inl e -> e <> CallerError tag).
Proof.
  destruct remove_again_trace as [Ht He].
  unfold swap_out, run, bind, emit, lift, ret, subprocess_run, check_restored, raise.
  destruct (checkout_restore o) as [[code out err|]|]; simpl.
  - destruct (Z.eqb_spec code 0) as [->|Hcode]; simpl.
    + destruct (remove_again o (status self)) as [t3 r]. simpl in *.
      exists t3. repeat split; eauto.
    + exists []. repeat split; [constructor|discriminate|]. intros; congruence.
  - exists []. repeat split; [constructor|discriminate|]. intros; congruence.
  - exists []. repeat split; [constructor|discriminate|]. intros; congruence.
Qed.

Lemma baseline_context_raised_early (t0 : list event) (e : git_error) :
  record_tree self o = (t0, inl e) -> baseline_context self o = (t0, inl e).
Proof. intros H. unfold baseline_context, bind. by rewrite H. Qed.

Lemma baseline_context_swapped (t0 : list event) (current_tree : string) :
  record_tree self o = (t0, inr current_tree) ->
  baseline_context self o
  = (t0 ++ (swap_in self o).1 ++ (swap_out self o current_tree).1,
     match (swap_out self o current_tree).2 with
     | inl e => inl e
     | inr _ => (swap_in self o).2
     end).
Proof.
  intros H. unfold baseline_context, bind, try_finally. rewrite H.
  destruct (swap_in self o) as [t1 r1].
  destruct (swap_out self o current_tree) as [t2 r2]. reflexivity.
Qed.

(** Had the restoration been run with its diagnostic output piped, the
    block that follows it would tolerate the empty-repository failure and
    escalate every other one with the output in the message. *)
Lemma check_restored_when_piped (x : CompletedProcess) (output : string) :
  returncode x <> 0 ->
  stderr x = Some output ->
  check_restored x
  = if Py.truthy output && (2 <=? Py.len_str output)
       && contains benign_pattern (strip_ws output)
    then ([LogDebug skipping_checkout], inr tt)
    else ([], inl (GitException (FatalRestoringGitState output))).
Proof.
  intros Hcode Herr. unfold check_restored. rewrite Herr.
  destruct (Z.eqb_spec (returncode x) 0); [done|]. simpl.
  by destruct (Py.truthy output && (2 <=? Py.len_str output)
               && contains benign_pattern (strip_ws output)).
Qed.

(** C2, on every input that breaks it: once the [try] block is entered,
    a restoration checkout that exits with a code other than 0 makes the
    scoped swap raise [AttributeError] right after that checkout, whatever
    the diagnostic output says.  The call does not pipe the output, so the
    attribute the [finally] clause decodes is [None]: the empty-repository
    failure is not tolerated and the fatal error with the recovery
    instruction is never raised. *)
Theorem restoration_failure_raises_attribute_error (t0 : list event)
    (current_tree : string) (code : Z) (out err : string) :
  record_tree self o = (t0, inr current_tree) ->
  checkout_restore o = Finished (Exited code out err) ->
  code <> 0 ->
  baseline_context self o
  = (t0 ++ (swap_in self o).1
        ++ [Checkout Restoration (strip_ws current_tree) (checkout_restore o)],
     inl (AttributeError "'NoneType' object has no attribute 'decode'")).
Proof.
  intros Hrt Hrestore Hcode.
  rewrite (baseline_context_swapped t0 current_tree Hrt).
  unfold swap_out, run, bind, emit, lift, subprocess_run, check_restored, raise.
  rewrite Hrestore. simpl.
  destruct (Z.eqb_spec code 0); [done|]. reflexivity.
Qed.











End Swap.

(** C2 at a concrete input: the restoration exits with 1 and prints the
    empty-repository diagnostic, and the swap raises [AttributeError]. *)
Lemma restoration_failure_raises_attribute_error_witness :
  baseline_context Scenario.clean_handler
    (Scenario.empty_tree Scenario.benign_diagnostic)
  = ([RanWriteTree (Finished (Exited 0 (String.append "4b825dc6" Scenario.nl) ""));
      Unlink (MkPath "new.txt") Unlinked;
      Checkout Baseline "main" (Finished (Exited 0 "" ""));
      Yield None;
      Checkout Restoration "4b825dc6"
        (Finished (Exited 1 "" Scenario.benign_diagnostic))],
     inl (AttributeError "'NoneType' object has no attribute 'decode'"))
  /\ empty_repository_failure
       (checkout_restore (Scenario.empty_tree Scenario.benign_diagnostic)) = true.
Proof.
  split; [|reflexivity].
  exact (restoration_failure_raises_attribute_error Scenario.clean_handler
           (Scenario.empty_tree Scenario.benign_diagnostic)
           [RanWriteTree (Finished (Exited 0 (String.append "4b825dc6" Scenario.nl) ""))]
           "4b825dc6" 1 "" Scenario.benign_diagnostic
           eq_refl eq_refl ltac:(discriminate)).
Defined.

(** * Further properties *)

(** ** Splitting and joining *)

#[local] Arguments String.append : simpl nomatch.

Lemma append_assoc (s t u : string) :
  String.append (String.append s t) u = String.append s (String.append t u).
Proof. induction s as [|a s IH]; simpl; [done|]. by rewrite IH. Qed.

Lemma append_empty (s : string) : String.append s EmptyString = s.
Proof. induction s as [|a s IH]; simpl; [done|]. by rewrite IH. Qed.

Lemma split_on_nonempty (c : ascii) (s : string) : Py.split_on c s <> [].
Proof.
  induction s as [|a s IH]; simpl; [done|].
  destruct (Ascii.eqb a c); [done|]. by destruct (Py.split_on c s).
Qed.

Lemma join_cons (c : ascii) (w : string) (ws : list string) :
  ws <> [] ->
  Py.join_with c (w :: ws) = String.append w (String c (Py.join_with c ws)).
Proof. by destruct ws. Qed.


Lemma split_free (c : ascii) (f : string) :
  char_free c f = true -> Py.split_on c f = [f].
Proof.
  induction f as [|a f IH]; simpl; [done|].
  intros H. apply andb_prop in H as [Ha Hf]. apply negb_true_iff in Ha.
  rewrite Ha, IH by done. done.
Qed.

Lemma split_append (c : ascii) (f rest : string) :
  char_free c f = true ->
  Py.split_on c (String.append f (String c rest)) = f :: Py.split_on c rest.
Proof.
  induction f as [|a f IH]; simpl.
  - intros _. by rewrite Ascii.eqb_refl.
  - intros H. apply andb_prop in H as [Ha Hf]. apply negb_true_iff in Ha.
    rewrite Ha, IH by done. done.
Qed.

(** Splitting what [join] gives back restores the pieces, when no piece
    holds the separator. *)
Lemma split_join (c : ascii) (ls : list string) :
  ls <> [] ->
  Forall (fun f => char_free c f = true) ls ->
  Py.split_on c (Py.join_with c ls) = ls.
Proof.
  induction ls as [|f ls IH]; [done|]. intros _ Hall.
  apply Forall_cons in Hall as [Hf Hls].
  destruct ls as [|g ls].
  - simpl. by apply split_free.
  - rewrite join_cons by done. rewrite split_append by done.
    by rewrite IH.
Qed.

Lemma split_on_pieces_free (c : ascii) (s : string) :
  Forall (fun f => char_free c f = true) (Py.split_on c s).
Proof.
  induction s as [|a s IH]; simpl; [by repeat constructor|].
  destruct (Ascii.eqb_spec a c) as [->|Hac]; [by constructor|].
  destruct (Py.split_on c s) as [|w ws]; simpl.
  - repeat constructor. simpl. rewrite andb_true_r.
    by apply negb_true_iff, Ascii.eqb_neq.
  - apply Forall_cons in IH as [Hw Hws]. constructor; [|done].
    simpl. rewrite Hw, andb_true_r. by apply negb_true_iff, Ascii.eqb_neq.
Qed.

(** ** [zsplit] *)

Lemma lstrip_keeps (c : ascii) (s : string) :
  (forall a s', s = String a s' -> a <> c) -> Py.lstrip c s = s.
Proof.
  destruct s as [|a s]; [done|]. intros H. simpl.
  destruct (Ascii.eqb_spec a c) as [->|]; [|done]. by edestruct H.
Qed.

Lemma rstrip_separator (c : ascii) (s : string) :
  Py.rstrip c (String.append s (String c EmptyString)) = Py.rstrip c s.
Proof.
  induction s as [|a s IH]; simpl.
  - by rewrite Ascii.eqb_refl.
  - by rewrite IH.
Qed.

Lemma rstrip_after (c : ascii) (s t : string) :
  Py.rstrip c t <> EmptyString ->
  Py.rstrip c (String.append s t) = String.append s (Py.rstrip c t).
Proof.
  intros Ht. induction s as [|a s IH]; simpl; [done|].
  rewrite IH. destruct (String.append s (Py.rstrip c t)) eqn:Happ.
  - destruct s; simpl in Happ; [contradiction|discriminate].
  - rewrite <- Happ. reflexivity.
Qed.

Lemma rstrip_free (c : ascii) (f : string) :
  char_free c f = true -> Py.rstrip c f = f.
Proof.
  induction f as [|a f IH]; simpl; [done|].
  intros H. apply andb_prop in H as [Ha Hf]. apply negb_true_iff in Ha.
  rewrite IH by done. rewrite Ha. by destruct f.
Qed.

Lemma nul_terminated_join (fields : list string) :
  fields <> [] ->
  nul_terminated fields
  = String.append (Py.join_with Py.NUL fields) (String Py.NUL EmptyString).
Proof.
  induction fields as [|f fields IH]; [done|]. intros _.
  destruct fields as [|g fields].
  - reflexivity.
  - rewrite join_cons by done.
    change (nul_terminated (f :: g :: fields))
      with (String.append f (String Py.NUL (nul_terminated (g :: fields)))).
    rewrite IH by done. rewrite append_assoc. reflexivity.
Qed.

Lemma rstrip_join (fields : list string) (l : string) :
  Forall (fun f => char_free Py.NUL f = true) fields ->
  last fields = Some l -> l <> EmptyString ->
  Py.rstrip Py.NUL (Py.join_with Py.NUL fields) = Py.join_with Py.NUL fields.
Proof.
  induction fields as [|f fields IH]; [done|]. intros Hall Hlast Hl.
  apply Forall_cons in Hall as [Hf Hfields].
  destruct fields as [|g fields].
  - simpl in *. by apply rstrip_free.
  - rewrite join_cons by done.
    assert (Hrest : Py.rstrip Py.NUL (Py.join_with Py.NUL (g :: fields))
                    = Py.join_with Py.NUL (g :: fields)) by (by apply IH).
    assert (Hne : Py.join_with Py.NUL (g :: fields) <> EmptyString).
    { intros Hempty. rewrite Hempty in Hrest.
      pose proof (split_join Py.NUL (g :: fields) ltac:(done) Hfields) as Hs.
      rewrite Hempty in Hs. simpl in Hs.
      destruct fields; [|discriminate]. injection Hs as <-.
      simpl in Hlast. by injection Hlast as <-. }
    set (J := Py.join_with Py.NUL (g :: fields)) in *.
    assert (Hstep : Py.rstrip Py.NUL (String Py.NUL J) = String Py.NUL J).
    { change (Py.rstrip Py.NUL (String Py.NUL J))
        with (match Py.rstrip Py.NUL J with
              | EmptyString =>
                  if Ascii.eqb Py.NUL Py.NUL then EmptyString
                  else String Py.NUL EmptyString
              | r => String Py.NUL r
              end).
      rewrite Hrest. by destruct J. }
    rewrite rstrip_after; by rewrite Hstep.
Qed.

(** [zsplit] undoes the null-terminated encoding. *)
Lemma zsplit_inverts (fields : list string) :
  Forall (fun f => char_free Py.NUL f = true) fields ->
  head fields <> Some EmptyString ->
  last fields <> Some EmptyString ->
  zsplit (nul_terminated fields) = fields.
Proof.
  intros Hall Hhead Hlast.
  destruct fields as [|f fields]; [reflexivity|].
  destruct (last (f :: fields)) as [l|] eqn:Hl;
    [|by apply last_None in Hl].
  assert (Hlne : l <> EmptyString) by congruence.
  assert (Hfne : f <> EmptyString) by (simpl in Hhead; congruence).
  unfold zsplit, Py.strip.
  rewrite lstrip_keeps.
  - rewrite nul_terminated_join by done. rewrite rstrip_separator.
    rewrite (rstrip_join _ l) by done.
    rewrite split_join by done.
    destruct (Py.join_with Py.NUL (f :: fields)) eqn:Hj; [|reflexivity].
    exfalso. pose proof (split_join Py.NUL (f :: fields) ltac:(done) Hall) as Hs.
    rewrite Hj in Hs. simpl in Hs. destruct fields; [|discriminate].
    by injection Hs as <-.
  - intros a s' Heq Ha.
    destruct f as [|b f]; [done|]. simpl in Heq. injection Heq as Hb _.
    apply Forall_cons in Hall as [Hf _]. simpl in Hf.
    rewrite Hb, Ha, Ascii.eqb_refl in Hf. done.
Qed.

(** X1: [zsplit] inverts the null-terminated encoding of a list of
    fields, provided no field holds a null character and neither the first
    nor the last field is empty (a leading or trailing empty field is lost
    with the null characters [zsplit] strips). *)
Theorem zsplit_nul_terminated (fields : list string) :
  Forall (fun f => char_free Py.NUL f = true) fields ->
  head fields <> Some EmptyString ->
  last fields <> Some EmptyString ->
  zsplit (nul_terminated fields) = fields.
Proof. apply zsplit_inverts. Qed.

Lemma zsplit_nul_terminated_witness :
  zsplit (nul_terminated ["R100"; "old.txt"; "new.txt"])
  = ["R100"; "old.txt"; "new.txt"].
Proof.
  apply (zsplit_nul_terminated ["R100"; "old.txt"; "new.txt"]).
  - repeat constructor.
  - discriminate.
  - discriminate.
Defined.

(** ** The status set from raw output *)

Lemma classified_code_nonempty (sym : string -> bool) (e : diff_entry) :
  classified sym e = true -> head (fields e) <> Some EmptyString.
Proof.
  destruct e as [code fname|code old new]; simpl; intros H Hhead;
    injection Hhead as ->; discriminate.
Qed.

(** X2: when [git diff] exits with 0 and prints the null-terminated
    fields of a list of entries the loop classifies (no field holds a null
    character and the last path is not empty), [_get_git_status] returns
    the status set the entries stand for: every rename removes its old
    path and adds its new one, and the codes A, M, D and U add the path to
    the added, modified, removed and unmerged lists, all in the order of
    the output. *)
Theorem get_git_status_reads_entries (sym : string -> bool)
    (es : list diff_entry) (fuel : nat) (base_commit err : string) :
  forallb (classified sym) es = true ->
  Forall (fun f => char_free Py.NUL f = true) (concat (fields <$> es)) ->
  last (concat (fields <$> es)) <> Some EmptyString ->
  (length es <= fuel)%nat ->
  _get_git_status fuel base_commit
    (Finished (Exited 0 (nul_terminated (concat (fields <$> es))) err)) sym
  = Done (fold_left classify_entry es empty_status).
Proof.
  intros Hes Hfree Hlast Hfuel. unfold _get_git_status. simpl.
  rewrite zsplit_inverts; [by apply loop_on_classified|done| |done].
  destruct es as [|e es]; [done|].
  simpl in Hes. apply andb_prop in Hes as [He _].
  pose proof (classified_code_nonempty sym e He) as Hhd.
  rewrite fmap_cons. simpl concat. by destruct e.
Qed.

Lemma get_git_status_reads_entries_witness :
  _get_git_status 2 "main"
    (Finished (Exited 0
       (nul_terminated ["R100"; "old.txt"; "new.txt"; "M"; "m.txt"]) ""))
    (fun _ => false)
  = Done {| added := [MkPath "new.txt"]; modified := [MkPath "m.txt"];
            removed := [MkPath "old.txt"]; unmerged := [] |}.
Proof.
  apply (get_git_status_reads_entries (fun _ => false)
           [Rename "R100" "old.txt" "new.txt"; Plain "M" "m.txt"] 2 "main" "").
  - reflexivity.
  - repeat constructor.
  - discriminate.
  - apply le_n.
Defined.

(** X3: an entry with one path that the loop classifies (its code is not
    blank, is neither the untracked nor the ignored code and does not
    start with R, and its path is not a symbolic link to a directory) and
    whose code is none of A, M, D, U (a type change, code T, which the
    diff filter asks for) is consumed by the loop and recorded in none of
    the four lists: the loop goes on with the rest of the output and the
    lists as they were. *)
Theorem unrecorded_code_is_dropped (sym : string -> bool) (acc : GitStatus)
    (code fname : string) (rest : list string) (fuel : nat) :
  classified sym (Plain code fname) = true ->
  code <> StatusCode.Added -> code <> StatusCode.Modified ->
  code <> StatusCode.Deleted -> code <> StatusCode.Unmerged ->
  status_loop (S fuel) sym acc (code :: fname :: rest)
  = status_loop fuel sym acc rest.
Proof.
  intros Hc HA HM HD HU. simpl status_loop.
  pose proof (iteration_on_classified sym acc (Plain code fname) rest Hc) as Hit.
  simpl in Hit. rewrite Hit. f_equal.
  apply String.eqb_neq in HA, HM, HD, HU. rewrite HA, HM, HD, HU.
  by destruct acc.
Qed.

Lemma unrecorded_code_is_dropped_witness :
  status_loop 2 (fun _ => false) empty_status ["T"; "link"; "M"; "m.txt"]
  = status_loop 1 (fun _ => false) empty_status ["M"; "m.txt"].
Proof.
  apply (unrecorded_code_is_dropped (fun _ => false) empty_status
           "T" "link" ["M"; "m.txt"] 1); [reflexivity|discriminate..].
Defined.

(** X4: output that ends in the middle of a record makes the loop raise
    [IndexError], also after entries it has classified: a code without its
    path, or a rename without its new path. *)
Theorem truncated_output_raises_index_error (sym : string -> bool)
    (es : list diff_entry) (fuel : nat) (code tail old : string) :
  forallb (classified sym) es = true ->
  (length es < fuel)%nat ->
  sym old = false ->
  status_loop fuel sym empty_status (concat (fields <$> es) ++ [code])
  = Error GitIndexError
  /\ status_loop fuel sym empty_status
       (concat (fields <$> es) ++ [String "R" tail; old])
     = Error GitIndexError.
Proof.
  intros Hes Hfuel Hold.
  assert (Hgen : forall tl acc n,
    (length es < n)%nat ->
    (forall a, status_iteration sym a tl = Crashed GitIndexError) ->
    tl <> [] ->
    status_loop n sym acc (concat (fields <$> es) ++ tl) = Error GitIndexError).
  { intros tl. induction es as [|e es IH]; intros acc n Hn Htl Hne.
    - simpl. destruct n as [|n]; [simpl in Hn; lia|].
      destruct tl; [done|]. simpl. by rewrite Htl.
    - simpl in Hes. apply andb_prop in Hes as [He Hes'].
      destruct n as [|n]; [simpl in Hn; lia|].
      rewrite fmap_cons. simpl concat. rewrite <- app_assoc.
      pose proof (iteration_on_classified sym acc e
                    (concat (fields <$> es) ++ tl) He) as Hit.
      destruct e; simpl in *; rewrite Hit; apply IH; auto; lia. }
  split; apply Hgen; try done.
  intros a. unfold status_iteration.
  change (Py.index [String "R" tail; old] 0) with (Some (String "R" tail)).
  change (Py.index [String "R" tail; old] 1) with (Some old).
  cbv iota beta.
  assert (Hblank : Py.truthy (strip_ws (String "R" tail)) = true).
  { unfold strip_ws. simpl lstrip_ws.
    pose proof (rstrip_ws_keeps "R" tail eq_refl) as Hk.
    by destruct (rstrip_ws (String "R" tail)). }
  rewrite Hblank, Hold. reflexivity.
Qed.

Lemma truncated_output_raises_index_error_witness :
  status_loop 2 (fun _ => false) empty_status
    (concat (fields <$> [Plain "M" "m.txt"]) ++ ["A"])
  = Error GitIndexError
  /\ status_loop 2 (fun _ => false) empty_status
       (concat (fields <$> [Plain "M" "m.txt"]) ++ [String "R" "100"; "old.txt"])
     = Error GitIndexError.
Proof.
  apply (truncated_output_raises_index_error (fun _ => false)
           [Plain "M" "m.txt"] 2 "A" "100" "old.txt").
  - reflexivity.
  - apply le_n.
  - reflexivity.
Defined.

(** ** The dirty-path index *)

Lemma first_char_cons (a : ascii) (s : string) :
  first_char (String a s) = String a EmptyString.
Proof. reflexivity. Qed.

Lemma group_dirty_lookup (output : list string) :
  forall acc : gmap string (list Path),
  Forall (fun line => line <> EmptyString) output ->
  exists d,
    group_dirty output acc = inr d
    /\ forall code,
         d !! code
         = match acc !! code, dirty_paths_with_code code output with
           | None, [] => None
           | o, ps => Some (default [] o ++ ps)
           end.
Proof.
  induction output as [|line output IH]; intros acc Hall.
  - exists acc. split; [done|]. intros code. unfold dirty_paths_with_code. simpl.
    destruct (acc !! code); simpl; [by rewrite app_nil_r|done].
  - apply Forall_cons in Hall as [Hline Hall].
    destruct line as [|a s]; [done|].
    set (p := Path_of (Py.str_slice_from (String a s) 3)).
    set (acc' := <[String a EmptyString := default [] (acc !! String a EmptyString) ++ [p]]> acc).
    destruct (IH acc' Hall) as (d & Hd & Hlook).
    exists d. split.
    + simpl. fold p. rewrite <- Hd. f_equal. unfold acc'.
      by destruct (acc !! String a EmptyString).
    + intros code. rewrite Hlook. unfold dirty_paths_with_code. simpl.
      destruct (String.eqb_spec (String a EmptyString) code) as [<-|Hne].
      * unfold acc'. rewrite lookup_insert_eq. simpl. fold p.
        rewrite <- app_assoc. simpl. rewrite Ascii.eqb_refl. simpl. fold p.
        by destruct (acc !! String a EmptyString).
      * unfold acc'. rewrite lookup_insert_ne by done.
        apply String.eqb_neq in Hne. simpl in Hne. by rewrite Hne.
Qed.

(** The index read from the records of [git status]. *)
Lemma dirty_paths_lookup (out err : string) :
  Forall (fun line => line <> EmptyString) (zsplit out) ->
  exists d,
    _get_dirty_paths_by_status None (Finished (Exited 0 out err)) = inr d
    /\ forall code,
         d !! code
         = match dirty_paths_with_code code (zsplit out) with
           | [] => None
           | ps => Some ps
           end.
Proof.
  intros Hall. destruct (group_dirty_lookup (zsplit out) ∅ Hall) as (d & Hd & Hlook).
  exists d. split; [exact Hd|]. intros code. rewrite Hlook, lookup_empty.
  by destruct (dirty_paths_with_code code (zsplit out)).
Qed.

(** X5: when [git status] exits with 0 and none of its records is empty,
    the dirty-path index maps each character to the paths of the records
    that start with it, in order (the path is the record from its fourth
    character on), and has no key for a character no record starts
    with. *)
Theorem dirty_paths_grouped_by_first_character (out err : string) :
  Forall (fun line => line <> EmptyString) (zsplit out) ->
  exists d,
    _get_dirty_paths_by_status None (Finished (Exited 0 out err)) = inr d
    /\ forall code,
         d !! code
         = match dirty_paths_with_code code (zsplit out) with
           | [] => None
           | ps => Some ps
           end.
Proof. apply dirty_paths_lookup. Qed.

Lemma dirty_paths_grouped_by_first_character_witness :
  exists d,
    _get_dirty_paths_by_status None
      (Finished (Exited 0 (nul_terminated ["?? new.py"; " M src/a.py"; "?? b.py"]) ""))
    = inr d
    /\ forall code,
         d !! code
         = match dirty_paths_with_code code
                   (zsplit (nul_terminated ["?? new.py"; " M src/a.py"; "?? b.py"])) with
           | [] => None
           | ps => Some ps
           end.
Proof.
  apply (dirty_paths_grouped_by_first_character
           (nul_terminated ["?? new.py"; " M src/a.py"; "?? b.py"]) "").
  vm_compute. repeat constructor; discriminate.
Defined.

Lemma with_code_nonempty (code : string) (output : list string) :
  dirty_paths_with_code code output <> []
  <-> exists line, line ∈ output /\ first_char line = code.
Proof.
  unfold dirty_paths_with_code. induction output as [|l output IH]; simpl.
  - split; [done|]. intros (line & Hin & _). by apply elem_of_nil in Hin.
  - destruct (String.eqb_spec (first_char l) code) as [Heq|Hne]; simpl.
    + split; [|done]. intros _. exists l. split; [apply list_elem_of_here|done].
    + rewrite IH. split.
      * intros (line & Hin & Hc). exists line. split; [by apply list_elem_of_further|done].
      * intros (line & Hin & Hc). apply elem_of_cons in Hin as [->|Hin]; [done|].
        by exists line.
Qed.

(** When the first precondition check raises. *)
Lemma pending_changes_iff (out err : string) :
  Forall (fun line => line <> EmptyString) (zsplit out) ->
  (_abort_on_pending_changes None (Finished (Exited 0 out err))
   = inl (GitException PendingChanges)
   <-> exists line, line ∈ zsplit out /\ first_char line <> StatusCode.Untracked)
  /\ ((forall line, line ∈ zsplit out -> first_char line = StatusCode.Untracked) ->
      _abort_on_pending_changes None (Finished (Exited 0 out err))
      = _get_dirty_paths_by_status None (Finished (Exited 0 out err))).
Proof.
  intros Hall.
  destruct (dirty_paths_lookup out err Hall) as (d & Hd & Hlook).
  unfold _abort_on_pending_changes. rewrite Hd.
  assert (Hdom : forall code, code ∈ dom d
                 <-> exists line, line ∈ zsplit out /\ first_char line = code).
  { intros code. rewrite elem_of_dom, Hlook, <- with_code_nonempty.
    destruct (dirty_paths_with_code code (zsplit out)); split;
      intros H; try done; by destruct H. }
  destruct (bool_decide_reflect
              (dom d ∖ {[StatusCode.Untracked]} = (∅ : gset string))) as [He|Hne].
  - split.
    + split; [discriminate|]. intros (line & Hin & Hc). exfalso.
      assert (first_char line ∈ dom d ∖ {[StatusCode.Untracked]}) as Hx.
      { apply elem_of_difference. split; [apply Hdom; eauto|set_solver]. }
      rewrite He in Hx. by apply elem_of_empty in Hx.
    + done.
  - split.
    + split; [|done]. intros _.
      apply set_choose_L in Hne as (code & Hcode).
      apply elem_of_difference in Hcode as [Hin Hnot].
      apply Hdom in Hin as (line & Hline & Hc).
      exists line. split; [done|]. rewrite Hc. set_solver.
    + intros Hq. exfalso. apply Hne. apply elem_of_equiv_empty_L.
      intros code Hcode. apply elem_of_difference in Hcode as [Hin Hnot].
      apply Hdom in Hin as (line & Hline & Hc).
      rewrite (Hq line Hline) in Hc. set_solver.
Qed.

(** X6: when [git status] exits with 0 and none of its records is empty,
    [_abort_on_pending_changes] raises the pending-changes error exactly
    when some record starts with a character other than the untracked
    code, and otherwise hands back the index. *)
Theorem pending_changes_raised_iff_tracked_record (out err : string) :
  Forall (fun line => line <> EmptyString) (zsplit out) ->
  (_abort_on_pending_changes None (Finished (Exited 0 out err))
   = inl (GitException PendingChanges)
   <-> exists line, line ∈ zsplit out /\ first_char line <> StatusCode.Untracked)
  /\ ((forall line, line ∈ zsplit out -> first_char line = StatusCode.Untracked) ->
      _abort_on_pending_changes None (Finished (Exited 0 out err))
      = _get_dirty_paths_by_status None (Finished (Exited 0 out err))).
Proof. apply pending_changes_iff. Qed.

Lemma pending_changes_raised_iff_tracked_record_witness :
  (_abort_on_pending_changes None
     (Finished (Exited 0 (nul_terminated ["?? new.py"; " M src/a.py"]) ""))
   = inl (GitException PendingChanges)
   <-> exists line,
         line ∈ zsplit (nul_terminated ["?? new.py"; " M src/a.py"])
         /\ first_char line <> StatusCode.Untracked)
  /\ ((forall line,
         line ∈ zsplit (nul_terminated ["?? new.py"; " M src/a.py"]) ->
         first_char line = StatusCode.Untracked) ->
      _abort_on_pending_changes None
        (Finished (Exited 0 (nul_terminated ["?? new.py"; " M src/a.py"]) ""))
      = _get_dirty_paths_by_status None
          (Finished (Exited 0 (nul_terminated ["?? new.py"; " M src/a.py"]) ""))).
Proof.
  apply (pending_changes_raised_iff_tracked_record
           (nul_terminated ["?? new.py"; " M src/a.py"]) "").
  vm_compute. repeat constructor; discriminate.
Defined.

(** ** Construction and the swap together *)

Lemma pending_changes_passed (cache : option (gmap string (list Path)))
    (c : timed) (d : gmap string (list Path)) :
  _abort_on_pending_changes cache c = inr d ->
  dom d ∖ {[StatusCode.Untracked]} = (∅ : gset string)
  /\ _abort_on_pending_changes (Some d) c = inr d.
Proof.
  unfold _abort_on_pending_changes.
  destruct (_get_dirty_paths_by_status cache c) as [e|d']; [done|].
  simpl. destruct (bool_decide_reflect
    (dom d' ∖ {[StatusCode.Untracked]} = (∅ : gset string))) as [He|]; [|done].
  intros [= <-]. split; [done|]. by rewrite bool_decide_true.
Qed.

(** X7: a handler that [__init__] has constructed keeps the reference it
    was given and a dirty-path index whose only possible key is the
    untracked code; when the swap is entered with it, the two precondition
    checks run on the cached index, never run [git status] again and
    cannot fail, so the first thing the swap does is [git write-tree], and
    it goes on with the stripped output of that command or raises what the
    command raised. *)
Theorem constructed_handler_enters_swap (fuel : nat) (base_commit : string)
    (o : init_oracle) (h : BaselineHandler) (ctx : context_oracle) :
  BaselineHandler__init__ fuel base_commit o = Done h ->
  _base_commit h = base_commit
  /\ (exists d, _dirty_paths_by_status h = Some d
                /\ dom d ⊆ ({[StatusCode.Untracked]} : gset string))
  /\ record_tree h ctx
     = ([RanWriteTree (write_tree ctx)],
        match subprocess_run true true true ["git"; "write-tree"] (write_tree ctx) with
        | inl e => inl e
        | inr x => inr (strip_ws (default EmptyString (stdout x)))
        end).
Proof.
  unfold BaselineHandler__init__.
  destruct (subprocess_run _ _ _ _ _) as [[]|]; try done.
  destruct (_get_git_status _ _ _ _) as [st| |]; try done.
  destruct (_abort_on_pending_changes None (git_status o)) as [|d] eqn:Hp; [done|].
  destruct (_abort_on_conflicting_untracked_paths _ _ _) as [|[]]; [done|].
  intros [= <-]. simpl.
  destruct (pending_changes_passed _ _ _ Hp) as [Hdom Hagain].
  split; [done|]. split.
  - exists d. split; [done|]. intros code Hcode.
    destruct (decide (code = StatusCode.Untracked)) as [->|Hne];
      [by apply elem_of_singleton|].
    exfalso. apply (not_elem_of_empty (C := gset string) code).
    rewrite <- Hdom. apply elem_of_difference. split; [done|].
    by rewrite elem_of_singleton.
  - unfold record_tree. simpl.
    unfold _abort_on_pending_changes, _get_dirty_paths_by_status.
    rewrite bool_decide_true by done.
    unfold _abort_on_conflicting_untracked_paths.
    rewrite overlapping_paths_empty, bool_decide_true by done.
    unfold run, bind, emit, lift, ret. simpl.
    by destruct (subprocess_run _ _ _ _ _).
Qed.

Lemma constructed_handler_enters_swap_witness :
  exists h,
    BaselineHandler__init__ 1 "main" Scenario.clobbering = Done h
    /\ record_tree h (Scenario.empty_tree "")
       = ([RanWriteTree (Finished (Exited 0 (String.append "4b825dc6" Scenario.nl) ""))],
          inr "4b825dc6").
Proof.
  eexists. split; [reflexivity|].
  exact (proj2 (proj2 (constructed_handler_enters_swap 1 "main"
           Scenario.clobbering _ (Scenario.empty_tree "") eq_refl))).
Defined.

Section SwapOutcome.

Variable self : BaselineHandler.
Variable o : context_oracle.

(** The [try] block, case by case. *)
Lemma swap_in_cases :
  swap_in self o
  = match (unlink_added (unlink o) 0 (added (status self))).2 with
    | inl e => ((unlink_added (unlink o) 0 (added (status self))).1, inl e)
    | inr _ =>
        match subprocess_run false false true
                (checkout_cmd (_base_commit self)) (checkout_baseline o) with
        | inl e =>
            ((unlink_added (unlink o) 0 (added (status self))).1
               ++ [Checkout Baseline (_base_commit self) (checkout_baseline o)],
             inl e)
        | inr _ =>
            ((unlink_added (unlink o) 0 (added (status self))).1
               ++ [Checkout Baseline (_base_commit self) (checkout_baseline o);
                   Yield (body o)],
             match body o with
             | None => inr tt
             | Some tag => inl (CallerError tag)
             end)
        end
    end.
Proof.
  unfold swap_in.
  destruct (unlink_added (unlink o) 0 (added (status self))) as [tu [e|[]]];
    simpl; [done|].
  unfold run, bind, emit, lift, ret, raise. simpl.
  destruct (subprocess_run _ _ _ _ _) as [e|x]; simpl; [done|].
  by destruct (body o).
Qed.

(** The cleanup after a restoration that succeeds. *)
Lemma restored_swap (t0 : list event)
    (current_tree out err : string) (code : Z) (out' err' : string) :
  record_tree self o = (t0, inr current_tree) ->
  checkout_restore o = Finished (Exited 0 out err) ->
  git_rm o = Finished (Exited code out' err') ->
  (baseline_context self o).2 = (swap_in self o).2
  /\ (baseline_context self o).1
     = t0 ++ (swap_in self o).1
         ++ Checkout Restoration (strip_ws current_tree) (checkout_restore o)
         :: match List.filter (exists_ o) (removed (status self)) with
            | [] => []
            | to_remove => [GitRm to_remove (git_rm o)]
            end.
Proof.
  intros Hrt Hrestore Hrm.
  rewrite (baseline_context_swapped self o t0 current_tree Hrt). simpl.
  unfold swap_out, remove_again, run, bind, emit, lift, ret, subprocess_run,
    check_restored.
  rewrite Hrestore, Hrm. simpl.
  destruct (removed (status self)) as [|r rs] eqn:Hremoved; simpl; [done|].
  destruct (if exists_ o r then r :: List.filter (exists_ o) rs
            else List.filter (exists_ o) rs); done.
Qed.

(** X8: when the snapshot was recorded, the restoration checkout exits
    with 0 and [git rm], if it is run, ends (with any exit code), the swap
    ends exactly as its [try] block did: the cleanup neither raises nor
    hides what the block raised.  After the restoration checkout the only
    further action is one [git rm -f] on the removed paths that exist, and
    none when there is no such path. *)
Theorem restored_swap_ends_as_its_try_block (t0 : list event)
    (current_tree out err : string) (code : Z) (out' err' : string) :
  record_tree self o = (t0, inr current_tree) ->
  checkout_restore o = Finished (Exited 0 out err) ->
  git_rm o = Finished (Exited code out' err') ->
  (baseline_context self o).2 = (swap_in self o).2
  /\ (baseline_context self o).1
     = t0 ++ (swap_in self o).1
         ++ Checkout Restoration (strip_ws current_tree) (checkout_restore o)
         :: match List.filter (exists_ o) (removed (status self)) with
            | [] => []
            | to_remove => [GitRm to_remove (git_rm o)]
            end.
Proof. apply restored_swap. Qed.

(** X9: when in addition no deletion of an added path fails and the
    baseline checkout exits with 0, the swap returns normally if the
    caller's block does, and otherwise raises the exception the block
    raised, unchanged. *)
Theorem swap_passes_the_block_outcome_through (t0 : list event)
    (current_tree out err : string) (code : Z) (out' err' out'' err'' : string) :
  record_tree self o = (t0, inr current_tree) ->
  (forall i p, unlink o i p <> UnlinkFailed) ->
  checkout_baseline o = Finished (Exited 0 out'' err'') ->
  checkout_restore o = Finished (Exited 0 out err) ->
  git_rm o = Finished (Exited code out' err') ->
  (baseline_context self o).2
  = match body o with
    | None => inr tt
    | Some tag => inl (CallerError tag)
    end.
Proof.
  intros Hrt Hunlink Hbase Hrestore Hrm.
  rewrite (proj1 (restored_swap
                    t0 current_tree out err code out' err' Hrt Hrestore Hrm)).
  rewrite swap_in_cases.
  assert (Hu : forall paths i, (unlink_added (unlink o) i paths).2 = inr tt).
  { induction paths as [|a rest IH]; intros i; simpl; [done|].
    specialize (Hunlink i a). specialize (IH (S i)).
    destruct (unlink o i a); [| |done]; unfold bind, emit; simpl;
      destruct (unlink_added (unlink o) (S i) rest) as [t r]; simpl in *;
      by subst r. }
  rewrite Hu. unfold subprocess_run. rewrite Hbase. simpl. reflexivity.
Qed.

(** X10: the caller's block is entered only after the baseline checkout
    has exited with 0 and every added path has been through its deletion
    without a failure. *)
Theorem block_runs_only_after_checkout (pre post : list event)
    (raised : option string) :
  (baseline_context self o).1 = pre ++ Yield raised :: post ->
  (exists out err, checkout_baseline o = Finished (Exited 0 out err))
  /\ (unlink_added (unlink o) 0 (added (status self))).2 = inr tt
  /\ raised = body o.
Proof.
  intros HT.
  pose proof (record_tree_trace self o) as H0.
  destruct (record_tree self o) as [t0 [e|current_tree]] eqn:Hrt; simpl in H0.
  - rewrite (baseline_context_raised_early self o t0 e Hrt) in HT. simpl in HT.
    exfalso. eapply (not_among is_yield _ _ _ _ HT eq_refl).
    eapply Forall_impl; [exact H0|]. by intros [].
  - rewrite (baseline_context_swapped self o t0 current_tree Hrt) in HT.
    simpl in HT.
    destruct (swap_out_shape self o current_tree) as (t3 & Hout & Ht3 & _ & _).
    rewrite Hout in HT.
    destruct (unlink_added_shape o (added (status self)) 0) as [Htu _].
    assert (Hy0 : Forall (fun ev => is_yield ev = false) t0)
      by (eapply Forall_impl; [exact H0|]; by intros []).
    assert (Hyu : Forall (fun ev => is_yield ev = false)
                    (unlink_added (unlink o) 0 (added (status self))).1)
      by (eapply Forall_impl; [exact Htu|]; by intros []).
    assert (Hy3 : Forall (fun ev => is_yield ev = false) t3)
      by (eapply Forall_impl; [exact Ht3|]; by intros []).
    rewrite swap_in_cases in HT.
    destruct (unlink_added (unlink o) 0 (added (status self))) as [tu [e|[]]];
      simpl in *.
    + exfalso. eapply (not_among is_yield _ _ _ _ HT eq_refl).
      rewrite !Forall_app, Forall_cons. auto.
    + unfold subprocess_run in HT.
      destruct (checkout_baseline o) as [[code out err|]|]; simpl in HT.
      * destruct (Z.eqb_spec code 0) as [->|Hcode]; simpl in HT.
        -- split; [eauto|]. split; [done|].
           replace (t0 ++ (tu ++ [Checkout Baseline (_base_commit self)
                                    (Finished (Exited 0 out err)); Yield (body o)])
                      ++ Checkout Restoration (strip_ws current_tree)
                           (checkout_restore o) :: t3)
             with ((t0 ++ tu ++ [Checkout Baseline (_base_commit self)
                                   (Finished (Exited 0 out err))])
                     ++ Yield (body o)
                     :: Checkout Restoration (strip_ws current_tree)
                          (checkout_restore o) :: t3) in HT
             by (rewrite <- !app_assoc; reflexivity).
           apply (split_unique is_yield) in HT as (_ & Hy & _);
             [by injection Hy|done| |by constructor].
           rewrite !Forall_app, Forall_singleton. auto.
        -- exfalso. eapply (not_among is_yield _ _ _ _ HT eq_refl).
           rewrite !Forall_app, !Forall_cons. repeat split; auto.
      * exfalso. eapply (not_among is_yield _ _ _ _ HT eq_refl).
        rewrite !Forall_app, !Forall_cons. repeat split; auto.
      * exfalso. eapply (not_among is_yield _ _ _ _ HT eq_refl).
        rewrite !Forall_app, !Forall_cons. repeat split; auto.
Qed.

End SwapOutcome.

(** ** Line endings *)

Lemma universal_newlines_cons (a : ascii) (s : string) :
  Py.universal_newlines (String a s)
  = if Ascii.eqb a Py.CR then
      match s with
      | String b s' =>
          if Ascii.eqb b Py.LF then String Py.LF (Py.universal_newlines s')
          else String Py.LF (Py.universal_newlines s)
      | EmptyString => String Py.LF EmptyString
      end
    else String a (Py.universal_newlines s).
Proof. reflexivity. Qed.

Lemma universal_newlines_no_cr (s : string) :
  char_free Py.CR (Py.universal_newlines s) = true.
Proof.
  assert (H : forall n s, (String.length s <= n)%nat ->
                char_free Py.CR (Py.universal_newlines s) = true).
  { clear s. induction n as [|n IH]; intros s Hn.
    - destruct s; [done|simpl in Hn; lia].
    - destruct s as [|a s]; [done|]. simpl in Hn.
      rewrite universal_newlines_cons.
      destruct (Ascii.eqb_spec a Py.CR) as [->|Ha].
      + destruct s as [|b s]; [done|]. simpl in Hn.
        destruct (Ascii.eqb b Py.LF); cbn [char_free];
          change (Ascii.eqb Py.LF Py.CR) with false; simpl negb;
          rewrite IH; simpl; try done; lia.
      + cbn [char_free]. rewrite IH by lia.
        apply Ascii.eqb_neq in Ha. by rewrite Ha. }
  by apply (H (String.length s)).
Qed.

Lemma universal_newlines_id (s : string) :
  char_free Py.CR s = true -> Py.universal_newlines s = s.
Proof.
  induction s as [|a s IH]; simpl; [done|].
  intros H. apply andb_prop in H as [Ha Hs]. apply negb_true_iff in Ha.
  rewrite Ha. by rewrite IH.
Qed.

Lemma split_on_keeps_free (c d : ascii) (s : string) :
  char_free d s = true ->
  Forall (fun f => char_free d f = true) (Py.split_on c s).
Proof.
  induction s as [|a s IH]; simpl; [by repeat constructor|].
  intros H. apply andb_prop in H as [Ha Hs]. specialize (IH Hs).
  destruct (Ascii.eqb a c); [by constructor|].
  destruct (Py.split_on c s) as [|w ws]; simpl.
  - repeat constructor. simpl. by rewrite Ha.
  - apply Forall_cons in IH as [Hw Hws]. constructor; [|done].
    simpl. by rewrite Ha, Hw.
Qed.

Lemma linebreak_free_no_cr (s : string) :
  linebreak_free s = true -> char_free Py.CR s = true.
Proof.
  induction s as [|a s IH]; simpl; [done|].
  intros H. apply andb_prop in H as [Ha Hs]. rewrite IH by done.
  rewrite andb_true_r. apply negb_true_iff. apply negb_true_iff in Ha.
  destruct (Ascii.eqb_spec a Py.CR) as [->|]; [discriminate|done].
Qed.

Lemma splitlines_cons (a : ascii) (s : string) :
  Py.splitlines (String a s)
  = if Py.is_linebreak a then
      match s with
      | String b s' =>
          if Ascii.eqb a Py.CR && Ascii.eqb b Py.LF
          then EmptyString :: Py.splitlines s'
          else EmptyString :: Py.splitlines s
      | EmptyString => [EmptyString]
      end
    else match Py.splitlines s with
         | [] => [String a EmptyString]
         | w :: ws => String a w :: ws
         end.
Proof. reflexivity. Qed.

Lemma splitlines_pieces (s : string) :
  Forall (fun f => linebreak_free f = true) (Py.splitlines s).
Proof.
  assert (H : forall n s, (String.length s <= n)%nat ->
                Forall (fun f => linebreak_free f = true) (Py.splitlines s)).
  { clear s. induction n as [|n IH]; intros s Hn.
    - destruct s; [constructor|simpl in Hn; lia].
    - destruct s as [|a s]; [constructor|]. simpl in Hn.
      rewrite splitlines_cons.
      destruct (Py.is_linebreak a) eqn:Ha.
      + destruct s as [|b s]; [by repeat constructor|]. simpl in Hn.
        destruct (Ascii.eqb a Py.CR && Ascii.eqb b Py.LF);
          constructor; try done; apply IH; simpl; lia.
      + pose proof (IH s ltac:(lia)) as Hs.
        destruct (Py.splitlines s) as [|w ws].
        * repeat constructor. cbn [linebreak_free]. by rewrite Ha.
        * apply Forall_cons in Hs as [Hw Hws]. constructor; [|done].
          cbn [linebreak_free]. by rewrite Ha, Hw. }
  by apply (H (String.length s)).
Qed.

Lemma char_free_append (c : ascii) (s t : string) :
  char_free c (String.append s t) = char_free c s && char_free c t.
Proof.
  induction s as [|a s IH]; simpl; [done|]. rewrite IH. by rewrite andb_assoc.
Qed.

Lemma join_keeps_free (c d : ascii) (ls : list string) :
  c <> d ->
  Forall (fun f => char_free d f = true) ls ->
  char_free d (Py.join_with c ls) = true.
Proof.
  intros Hcd. induction ls as [|f ls IH]; [done|]. intros Hall.
  apply Forall_cons in Hall as [Hf Hls].
  destruct ls as [|g ls]; [done|].
  rewrite join_cons by done. rewrite char_free_append. cbn [char_free].
  rewrite Hf, IH by done. rewrite andb_true_r. cbn [andb].
  apply negb_true_iff. by apply Ascii.eqb_neq.
Qed.

Lemma get_lines_no_cr (fs : disk) (p : string) (lines : list string) :
  _get_lines fs p = inr lines ->
  Forall (fun f => char_free Py.CR f = true) lines
  /\ Forall (fun f => char_free Py.LF f = true) lines
  /\ lines <> [].
Proof.
  unfold _get_lines. destruct (fs !! p) as [content|]; [|done].
  intros [= <-]. split; [|split].
  - apply split_on_keeps_free, universal_newlines_no_cr.
  - apply split_on_pieces_free.
  - apply split_on_nonempty.
Qed.

Lemma slices_keep {A} (P : A -> Prop) (l : list A) (a b : Z) :
  Forall P l ->
  Forall P (Py.slice_to l a) /\ Forall P (Py.slice_from l a)
  /\ Forall P (Py.slice l a b).
Proof.
  intros H. unfold Py.slice_to, Py.slice_from, Py.slice. repeat split.
  - by apply Forall_take.
  - by apply Forall_drop.
  - by apply Forall_take, Forall_drop.
Qed.

Section LineEndings.

Variable E : regex_engine.

(** Whatever a fix computes holds no carriage return. *)
Lemma compute_fix_no_cr (fs : disk) (m : RuleMatch) (fo fo' : FileOffsets)
    (fixobj : Fix) :
  compute_fix E fs m fo = Some (inr (fixobj, fo')) ->
  char_free Py.CR (fixed_contents fixobj) = true.
Proof.
  assert (Hbuild : forall lines middle a b,
    Forall (fun f => char_free Py.CR f = true) lines ->
    char_free Py.CR
      (Py.join_with SPLIT_CHAR
         (Py.slice_to lines a ++ Py.splitlines middle ++ Py.slice_from lines b))
    = true).
  { intros lines middle a b Hlines. apply join_keeps_free; [done|].
    destruct (slices_keep _ lines a 0 Hlines) as (Hto & _ & _).
    destruct (slices_keep _ lines b 0 Hlines) as (_ & Hfrom & _).
    rewrite !Forall_app. repeat split; [done| |done].
    eapply Forall_impl; [apply splitlines_pieces|].
    intros f. apply linebreak_free_no_cr. }
  unfold compute_fix.
  destruct (truthy_opt (fix_ m)) as [f|].
  - unfold _basic_fix.
    destruct (_get_lines fs (path m)) as [e|lines] eqn:Hlines; [done|].
    destruct (get_lines_no_cr _ _ _ Hlines) as (Hcr & _ & _).
    destruct (_get_match_context m fo) as [[[sl sc] el] ec].
    destruct (Py.index lines sl); [|done]. destruct (Py.index lines el); [|done].
    intros [= <- _]. simpl. by apply Hbuild.
  - destruct (truthy_fix_regex (fix_regex m)) as [d|]; [|done].
    destruct (truthy_opt (regex d)); [|done].
    destruct (truthy_opt (replacement d)); [|done].
    destruct (int_of_count _) as [[]|n]; try done.
    unfold _regex_replace.
    destruct (_get_lines fs (path m)) as [e|lines] eqn:Hlines; [done|].
    destruct (get_lines_no_cr _ _ _ Hlines) as (Hcr & _ & _).
    destruct (_get_match_context m fo) as [[[sl sc] el] ec].
    destruct (Re.sub _ _ _ _ _); [|done].
    intros [= <- _]. simpl. by apply Hbuild.
Qed.

Lemma apply_one_no_cr (dryrun : bool) (st : fix_state) (m : RuleMatch) :
  written_without_cr st ->
  match apply_one E dryrun st m with
  | Skipped st' | Applied st' _ | Failed st' _ => written_without_cr st'
  end.
Proof.
  intros Hst. unfold apply_one.
  destruct (retrieve_offsets (st_offsets st) m) as [fo0 aliased].
  destruct (compute_fix E (st_disk st) m (track_active_line fo0 m))
    as [[e|[fixobj off]]|] eqn:Hfix; simpl; try done.
  destruct dryrun; [done|].
  intros p Hp. simpl in *. unfold _write_contents.
  destruct (decide (p = path m)) as [->|Hne].
  - rewrite lookup_insert_eq. eexists. split; [done|].
    by eapply compute_fix_no_cr.
  - rewrite lookup_insert_ne by done. apply Hst. set_solver.
Qed.

Lemma apply_matches_no_cr (dryrun : bool) (ms : list RuleMatch) (st : fix_state) :
  written_without_cr st ->
  written_without_cr (apply_matches E dryrun st ms).1.1.
Proof.
  revert st. induction ms as [|m ms IH]; intros st Hst; simpl; [done|].
  pose proof (apply_one_no_cr dryrun st m Hst) as H1.
  destruct (apply_one E dryrun st m) as [st1|st1 m1|st1 e]; [| |done].
  - specialize (IH st1 H1).
    by destruct (apply_matches E dryrun st1 ms) as [[st2 out] err].
  - specialize (IH st1 H1).
    by destruct (apply_matches E dryrun st1 ms) as [[st2 out] err].
Qed.

Lemma apply_rules_no_cr (dryrun : bool) (by_rule : list (string * list RuleMatch))
    (st : fix_state) :
  written_without_cr st ->
  written_without_cr (apply_rules E dryrun st by_rule).1.1.
Proof.
  revert st. induction by_rule as [|[rule ms] rest IH]; intros st Hst; simpl; [done|].
  pose proof (apply_matches_no_cr dryrun ms st Hst) as H1.
  destruct (apply_matches E dryrun st ms) as [[st1 out] [e|]]; [done|].
  specialize (IH st1 H1).
  by destruct (apply_rules E dryrun st1 rest) as [[st2 out'] err].
Qed.

(** X11: a file that [apply_fixes] has rewritten holds no carriage
    return, whether the call returns or raises: the file is read with
    universal newlines and the replaced block goes through [splitlines],
    so CR LF and lone CR line endings, in the file and in the replacement,
    all come out as LF. *)
Theorem rewritten_files_have_no_carriage_return (fs : disk)
    (by_rule : list (string * list RuleMatch)) (dryrun : bool) (p : string) :
  p ∈ st_modified (run_state (apply_fixes E fs by_rule dryrun)) ->
  exists content,
    st_disk (run_state (apply_fixes E fs by_rule dryrun)) !! p = Some content
    /\ char_free Py.CR content = true.
Proof.
  unfold apply_fixes.
  pose proof (apply_rules_no_cr dryrun by_rule (initial_state fs)) as H.
  destruct (apply_rules E dryrun (initial_state fs) by_rule) as [[st out] err].
  simpl in *. apply H. intros q Hq. simpl in Hq. set_solver.
Qed.

End LineEndings.

Lemma rewritten_files_have_no_carriage_return_witness :
  exists content,
    st_disk (run_state
      (apply_fixes Re.literal
         {[ "w.txt" := String "f" (String "o" (String "o" (String Py.CR
                         (String Py.LF (String "b" (String Py.CR EmptyString)))))) ]}
         [("rule", [Scenario.literal_match "w.txt" 1 1 1 4 "qux"])] false))
      !! "w.txt" = Some content
    /\ char_free Py.CR content = true.
Proof.
  apply (rewritten_files_have_no_carriage_return Re.literal).
  apply (bool_decide_unpack _). vm_compute. exact I.
Defined.

(** ** Sequencing *)

Section Sequencing.

Variable E : regex_engine.
Variable dryrun : bool.

(** The loop over two lists of matches, one after the other. *)
Lemma apply_matches_app (ms1 ms2 : list RuleMatch) (st : fix_state) :
  apply_matches E dryrun st (ms1 ++ ms2)
  = match apply_matches E dryrun st ms1 with
    | (st1, out1, Some e) => (st1, out1 ++ ms2, Some e)
    | (st1, out1, None) =>
        match apply_matches E dryrun st1 ms2 with
        | (st2, out2, err) => (st2, out1 ++ out2, err)
        end
    end.
Proof.
  revert st. induction ms1 as [|m ms1 IH]; intros st; simpl.
  - by destruct (apply_matches E dryrun st ms2) as [[st2 out2] err].
  - destruct (apply_one E dryrun st m) as [st1|st1 m1|st1 e]; [| |done].
    + rewrite IH. destruct (apply_matches E dryrun st1 ms1) as [[st' out1] [e|]];
        [done|]. by destruct (apply_matches E dryrun st' ms2) as [[st2 out2] err].
    + rewrite IH. destruct (apply_matches E dryrun st1 ms1) as [[st' out1] [e|]];
        [done|]. by destruct (apply_matches E dryrun st' ms2) as [[st2 out2] err].
Qed.

(** X12: the matches of one pass are processed strictly in order and the
    pass stops at the first fix that raises.  If the first part of a list
    of matches ends without an error, the list ends as its second part
    does from the state the first part reached; if the first part raises,
    the list raises the same error in the same state, and the records of
    the second part are left as they were. *)
Theorem apply_matches_in_sequence (ms1 ms2 : list RuleMatch) (st : fix_state) :
  apply_matches E dryrun st (ms1 ++ ms2)
  = match apply_matches E dryrun st ms1 with
    | (st1, out1, Some e) => (st1, out1 ++ ms2, Some e)
    | (st1, out1, None) =>
        match apply_matches E dryrun st1 ms2 with
        | (st2, out2, err) => (st2, out1 ++ out2, err)
        end
    end.
Proof. apply apply_matches_app. Qed.

Lemma apply_rules_flat (by_rule : list (string * list RuleMatch)) (st : fix_state) :
  (apply_rules E dryrun st by_rule).1.1
  = (apply_matches E dryrun st (all_matches by_rule)).1.1
  /\ (apply_rules E dryrun st by_rule).2
     = (apply_matches E dryrun st (all_matches by_rule)).2
  /\ all_matches (apply_rules E dryrun st by_rule).1.2
     = (apply_matches E dryrun st (all_matches by_rule)).1.2.
Proof.
  revert st. induction by_rule as [|[rule ms] rest IH]; intros st.
  - done.
  - unfold all_matches at 1 2 4. rewrite fmap_cons. simpl concat.
    fold (all_matches rest). rewrite apply_matches_app. simpl.
    destruct (apply_matches E dryrun st ms) as [[st1 out1] [e|]]; [done|].
    specialize (IH st1).
    destruct (apply_rules E dryrun st1 rest) as [[st2 out'] err].
    destruct (apply_matches E dryrun st1 (all_matches rest)) as [[st2' out2'] err'].
    simpl in *. destruct IH as (-> & -> & <-). done.
Qed.

(** X13: the grouping of the matches by rule has no effect on what
    [apply_fixes] does: the disk, the offsets, the set of modified files,
    the summary or the error, and the match records in iteration order are
    those of the same matches given under a single rule. *)
Theorem grouping_by_rule_is_irrelevant (fs : disk)
    (by_rule : list (string * list RuleMatch)) (rule : string) :
  run_state (apply_fixes E fs by_rule dryrun)
  = run_state (apply_fixes E fs [(rule, all_matches by_rule)] dryrun)
  /\ run_completion (apply_fixes E fs by_rule dryrun)
     = run_completion (apply_fixes E fs [(rule, all_matches by_rule)] dryrun)
  /\ all_matches (run_matches (apply_fixes E fs by_rule dryrun))
     = all_matches (run_matches
                      (apply_fixes E fs [(rule, all_matches by_rule)] dryrun)).
Proof.
  unfold apply_fixes.
  destruct (apply_rules_flat by_rule (initial_state fs)) as (Hst & Herr & Hout).
  destruct (apply_rules_flat [(rule, all_matches by_rule)] (initial_state fs))
    as (Hst' & Herr' & Hout').
  assert (Hflat : all_matches [(rule, all_matches by_rule)] = all_matches by_rule)
    by (unfold all_matches; simpl; by rewrite app_nil_r).
  rewrite Hflat in Hst', Herr', Hout'.
  destruct (apply_rules E dryrun (initial_state fs) by_rule) as [[st out] err].
  destruct (apply_rules E dryrun (initial_state fs) [(rule, all_matches by_rule)])
    as [[st' out'] err'].
  simpl in *. rewrite Hst, Hst', Herr, Herr', Hout, Hout'. done.
Qed.

End Sequencing.

(** ** What one fix writes *)

Lemma splitlines_single (s : string) :
  s <> EmptyString -> linebreak_free s = true -> Py.splitlines s = [s].
Proof.
  induction s as [|a s IH]; [done|]. intros _ H.
  cbn [linebreak_free] in H. apply andb_prop in H as [Ha Hs].
  apply negb_true_iff in Ha. rewrite splitlines_cons, Ha.
  destruct s as [|b s]; [done|]. by rewrite IH.
Qed.

Lemma linebreak_free_append (s t : string) :
  linebreak_free (String.append s t) = linebreak_free s && linebreak_free t.
Proof.
  induction s as [|a s IH]; simpl; [done|]. rewrite IH. by rewrite andb_assoc.
Qed.

Lemma linebreak_free_substring (s : string) :
  linebreak_free s = true ->
  forall i n, linebreak_free (substring i n s) = true.
Proof.
  induction s as [|a s IH]; intros H i n.
  - by destruct i, n.
  - cbn [linebreak_free] in H. apply andb_prop in H as [Ha Hs].
    destruct i as [|i]; destruct n as [|n]; simpl; try done.
    + by rewrite Ha, IH.
    + by apply IH.
    + by apply IH.
Qed.

Lemma linebreak_free_no_lf (s : string) :
  linebreak_free s = true -> char_free Py.LF s = true.
Proof.
  induction s as [|a s IH]; simpl; [done|].
  intros H. apply andb_prop in H as [Ha Hs]. rewrite IH by done.
  rewrite andb_true_r. apply negb_true_iff. apply negb_true_iff in Ha.
  destruct (Ascii.eqb_spec a Py.LF) as [->|]; [discriminate|done].
Qed.

Lemma append_nonempty (s t u : string) :
  t <> EmptyString -> String.append s (String.append t u) <> EmptyString.
Proof. destruct s; [|done]. by destruct t. Qed.

Lemma edit_line_clean (l f : string) (sc ec : nat) :
  f <> EmptyString -> linebreak_free f = true -> linebreak_free l = true ->
  edit_line l sc ec f <> EmptyString
  /\ linebreak_free (edit_line l sc ec f) = true.
Proof.
  intros Hf Hfree Hl. unfold edit_line. split; [by apply append_nonempty|].
  rewrite !linebreak_free_append, Hfree.
  by rewrite !linebreak_free_substring.
Qed.

Lemma index_of_nat {A} (l : list A) (i : nat) :
  Py.index l (Z.of_nat i) = l !! i.
Proof.
  unfold Py.index. destruct (Z.ltb_spec (Z.of_nat i) 0); [lia|].
  by rewrite Nat2Z.id.
Qed.

Lemma str_slices_of_nat (l : string) (sc ec : nat) :
  (sc <= String.length l)%nat -> (ec <= String.length l)%nat ->
  Py.str_slice_to l (Z.of_nat sc) = substring 0 sc l
  /\ Py.str_slice_from l (Z.of_nat ec)
     = substring ec (String.length l - ec) l.
Proof.
  intros Hsc Hec. unfold Py.str_slice_to, Py.str_slice_from, Py.clamp.
  destruct (Z.ltb_spec (Z.of_nat sc) 0); [lia|].
  destruct (Z.ltb_spec (Z.of_nat ec) 0); [lia|].
  replace (Z.to_nat (Z.min (Z.of_nat sc) (Z.of_nat (String.length l))))
    with sc by lia.
  replace (Z.to_nat (Z.min (Z.of_nat ec) (Z.of_nat (String.length l))))
    with ec by lia.
  done.
Qed.

(** A literal fix on one line, inside the line, with a replacement that
    holds no line boundary: the line is edited in place and the number of
    lines stays. *)
Lemma basic_fix_on_one_line (fs : disk) (m : RuleMatch) (fo : FileOffsets)
    (f : string) (lines : list string) (l : string) (sl sc ec : nat) :
  _get_lines fs (path m) = inr lines ->
  line (start m) - 1 + line_offset fo = Z.of_nat sl ->
  line (end_ m) - 1 + line_offset fo = Z.of_nat sl ->
  col (start m) - 1 + col_offset fo = Z.of_nat sc ->
  col (end_ m) - 1 + col_offset fo = Z.of_nat ec ->
  lines !! sl = Some l ->
  (sc <= ec <= String.length l)%nat ->
  f <> EmptyString -> linebreak_free f = true -> linebreak_free l = true ->
  _basic_fix fs m fo f
  = inr ({| fixed_contents :=
              Py.join_with Py.LF (<[sl := edit_line l sc ec f]> lines);
            fixed_lines := [edit_line l sc ec f] |},
         {| line_offset := 0;
            col_offset := Py.len_str f - (Z.of_nat ec - Z.of_nat sc);
            active_line := active_line fo |}).
Proof.
  intros Hlines Hsl Hel Hsc Hec Hl Hcols Hf Hfree Hlfree.
  pose proof (lookup_lt_Some _ _ _ Hl) as Hlt.
  unfold _basic_fix, _get_match_context. rewrite Hlines, Hsl, Hel, Hsc, Hec.
  rewrite !index_of_nat, Hl.
  destruct (str_slices_of_nat l sc ec) as [-> ->]; [lia..|].
  fold (edit_line l sc ec f).
  destruct (edit_line_clean l f sc ec Hf Hfree Hlfree) as [Hne Hclean].
  rewrite splitlines_single by done.
  rewrite slice_to_take by (unfold Py.len; lia).
  rewrite slice_from_drop by (unfold Py.len; lia).
  replace (Z.to_nat (Z.of_nat sl + 1)) with (S sl) by lia.
  rewrite Nat2Z.id. rewrite Z.eqb_refl.
  change (take sl lines ++ [edit_line l sc ec f] ++ drop (S sl) lines)
    with (take sl lines ++ edit_line l sc ec f :: drop (S sl) lines).
  rewrite <- insert_take_drop by done.
  unfold Py.len. rewrite length_insert, Z.sub_diag. reflexivity.
Qed.

Section OneFix.

Variable E : regex_engine.

(** X14: the first literal fix of a pass on a file, for a match that lies
    on one line and inside it, when neither that line nor the replacement
    holds a line boundary of [str.splitlines] (a form feed, say) and the
    replacement is not empty: the file is rewritten with
    that line edited in place and every other line as it was, no line is
    added or removed, the file is counted as modified, and the stored
    column offset is the length of the replacement minus the length of the
    replaced text. *)
Theorem literal_fix_edits_its_line (fs : disk) (p content f l : string)
    (sl sc ec : nat) (fix_regex' : option FixRegex) (st : fix_state) :
  st_disk st = fs -> st_offsets st !! p = None ->
  fs !! p = Some content ->
  Py.split_on Py.LF (Py.universal_newlines content) !! sl = Some l ->
  (sc <= ec <= String.length l)%nat ->
  f <> EmptyString -> linebreak_free f = true -> linebreak_free l = true ->
  let m := {| path := p;
              start := {| line := Z.of_nat sl + 1; col := Z.of_nat sc + 1 |};
              end_ := {| line := Z.of_nat sl + 1; col := Z.of_nat ec + 1 |};
              fix_ := Some f; fix_regex := fix_regex';
              extra_fixed_lines := None |} in
  apply_one E false st m
  = Applied
      {| st_disk :=
           <[p := Py.join_with Py.LF
                    (<[sl := edit_line l sc ec f]>
                       (Py.split_on Py.LF (Py.universal_newlines content)))]> fs;
         st_offsets :=
           <[p := {| line_offset := 0;
                     col_offset := Py.len_str f - (Z.of_nat ec - Z.of_nat sc);
                     active_line := Z.of_nat sl + 1 |}]> (st_offsets st);
         st_modified := {[p]} ∪ st_modified st |}
      m.
Proof.
  intros Hdisk Hoff Hp Hl Hcols Hf Hfree Hlfree m.
  unfold apply_one, retrieve_offsets. simpl. rewrite Hoff.
  unfold track_active_line. simpl. rewrite bool_decide_true by done.
  unfold compute_fix, truthy_opt. simpl.
  assert (Htruthy : Py.truthy f = true) by (by destruct f).
  rewrite Htruthy. rewrite Hdisk.
  erewrite (basic_fix_on_one_line fs m _ f _ l sl sc ec);
    [reflexivity| |simpl; lia..|done|done|done|done|done].
  unfold _get_lines. simpl. by rewrite Hp.
Qed.

End OneFix.

Lemma literal_fix_edits_its_line_witness :
  apply_one Re.literal false (initial_state Scenario.a_txt)
    (Scenario.literal_match "a.txt" 2 5 2 8 "qux")
  = Applied
      {| st_disk := <["a.txt" := expected_second_line]> Scenario.a_txt;
         st_offsets := {[ "a.txt" := {| line_offset := 0; col_offset := 0;
                                        active_line := 2 |} ]};
         st_modified := {["a.txt"]} ∪ ∅ |}
      (Scenario.literal_match "a.txt" 2 5 2 8 "qux").
Proof.
  exact (literal_fix_edits_its_line Re.literal Scenario.a_txt "a.txt"
           _ "qux" "baz foo" 1 4 7 None (initial_state Scenario.a_txt)
           eq_refl eq_refl eq_refl eq_refl
           (conj (le_S _ _ (le_S _ _ (le_S _ _ (le_n 4)))) (le_n 7))
           ltac:(discriminate) eq_refl eq_refl).
Defined.

(** ** Two fixes on one file *)

(** Reading back what a fix wrote gives the lines it wrote. *)
Lemma get_lines_after_write (fs : disk) (p : string) (ls : list string) :
  ls <> [] ->
  Forall (fun f => char_free Py.CR f = true) ls ->
  Forall (fun f => char_free Py.LF f = true) ls ->
  _get_lines (_write_contents fs p (Py.join_with Py.LF ls)) p = inr ls.
Proof.
  intros Hne Hcr Hlf. unfold _get_lines, _write_contents.
  rewrite lookup_insert_eq.
  rewrite universal_newlines_id by (by apply join_keeps_free).
  unfold SPLIT_CHAR. by rewrite split_join.
Qed.

Lemma insert_keeps {A} (P : A -> Prop) (l : list A) (i : nat) (x : A) :
  Forall P l -> P x -> Forall P (<[i := x]> l).
Proof. intros Hl Hx. by apply Forall_insert. Qed.

Section TwoFixes.

Variable E : regex_engine.

(** X15: two literal fixes on different lines of one file, each on one
    line and inside it, when neither of the two lines nor of the two
    replacements holds a line boundary of [str.splitlines] and the
    replacements are not empty, applied in one pass in either order of the
    lines: the file ends with both lines edited at the columns
    the matches give, exactly as if each fix had been applied to the
    original file alone, and every other line as it was. *)
Theorem fixes_on_two_lines_compose (fs : disk) (rule p content : string)
    (f1 f2 l1 l2 : string) (i1 i2 sc1 ec1 sc2 ec2 : nat) :
  fs !! p = Some content ->
  Py.split_on Py.LF (Py.universal_newlines content) !! i1 = Some l1 ->
  Py.split_on Py.LF (Py.universal_newlines content) !! i2 = Some l2 ->
  i1 <> i2 ->
  (sc1 <= ec1 <= String.length l1)%nat ->
  (sc2 <= ec2 <= String.length l2)%nat ->
  f1 <> EmptyString -> linebreak_free f1 = true -> linebreak_free l1 = true ->
  f2 <> EmptyString -> linebreak_free f2 = true -> linebreak_free l2 = true ->
  st_disk (run_state
    (apply_fixes E fs
       [(rule,
         [Scenario.literal_match p (Z.of_nat i1 + 1) (Z.of_nat sc1 + 1)
            (Z.of_nat i1 + 1) (Z.of_nat ec1 + 1) f1;
          Scenario.literal_match p (Z.of_nat i2 + 1) (Z.of_nat sc2 + 1)
            (Z.of_nat i2 + 1) (Z.of_nat ec2 + 1) f2])] false)) !! p
  = Some (Py.join_with Py.LF
            (<[i2 := edit_line l2 sc2 ec2 f2]>
               (<[i1 := edit_line l1 sc1 ec1 f1]>
                  (Py.split_on Py.LF (Py.universal_newlines content))))).
Proof.
  intros Hp Hl1 Hl2 Hne Hc1 Hc2 Hf1 Hfree1 Hlf1 Hf2 Hfree2 Hlf2.
  set (lines := Py.split_on Py.LF (Py.universal_newlines content)) in *.
  assert (Hlines : _get_lines fs p = inr lines)
    by (unfold _get_lines; by rewrite Hp).
  destruct (get_lines_no_cr fs p lines Hlines) as (Hcr & Hlf & Hnonempty).
  destruct (edit_line_clean l1 f1 sc1 ec1 Hf1 Hfree1 Hlf1) as [Hne1 Hclean1].
  set (lines1 := <[i1 := edit_line l1 sc1 ec1 f1]> lines).
  assert (Hlines1 : forall fs', _get_lines
            (_write_contents fs' p (Py.join_with Py.LF lines1)) p = inr lines1).
  { intros fs'. apply get_lines_after_write.
    - unfold lines1. intros Hnil. apply (f_equal length) in Hnil.
      rewrite length_insert in Hnil. by destruct lines.
    - apply insert_keeps; [done|]. by apply linebreak_free_no_cr.
    - apply insert_keeps; [done|]. by apply linebreak_free_no_lf. }
  unfold apply_fixes, apply_rules, apply_matches.
  (* the first fix *)
  unfold apply_one at 1, retrieve_offsets. simpl. rewrite lookup_empty.
  unfold track_active_line. simpl. rewrite bool_decide_true by done.
  unfold compute_fix at 1, truthy_opt. simpl.
  assert (Ht1 : Py.truthy f1 = true) by (by destruct f1). rewrite Ht1.
  erewrite (basic_fix_on_one_line fs _ _ f1 lines l1 i1 sc1 ec1);
    [|done|simpl; lia..|done|done|done|done|done].
  simpl. fold lines1.
  (* the second fix *)
  unfold apply_one, retrieve_offsets. simpl. rewrite lookup_insert_eq.
  unfold track_active_line. simpl.
  rewrite bool_decide_false by lia.
  unfold compute_fix, truthy_opt. simpl.
  assert (Ht2 : Py.truthy f2 = true) by (by destruct f2). rewrite Ht2.
  erewrite (basic_fix_on_one_line _ _ _ f2 lines1 l2 i2 sc2 ec2);
    [|apply Hlines1|simpl; lia..| |done|done|done|done].
  - simpl. unfold _write_contents. by rewrite lookup_insert_eq.
  - unfold lines1. by rewrite list_lookup_insert_ne.
Qed.

End TwoFixes.

Lemma fixes_on_two_lines_compose_witness :
  st_disk (run_state
    (apply_fixes Re.literal Scenario.a_txt
       [("rule",
         [Scenario.literal_match "a.txt" (Z.of_nat 1 + 1) (Z.of_nat 4 + 1)
            (Z.of_nat 1 + 1) (Z.of_nat 7 + 1) "qux";
          Scenario.literal_match "a.txt" (Z.of_nat 0 + 1) (Z.of_nat 0 + 1)
            (Z.of_nat 0 + 1) (Z.of_nat 3 + 1) "qux"])] false)) !! "a.txt"
  = Some (Py.join_with Py.LF
            (<[0%nat := edit_line "foo bar" 0 3 "qux"]>
               (<[1%nat := edit_line "baz foo" 4 7 "qux"]>
                  ["foo bar"; "baz foo"; ""]))).
Proof.
  refine (fixes_on_two_lines_compose Re.literal Scenario.a_txt "rule" "a.txt"
           _ "qux" "qux" "baz foo" "foo bar" 1 0 4 7 0 3
           eq_refl eq_refl eq_refl _ _ _ _ eq_refl eq_refl _ eq_refl eq_refl);
    try discriminate; split; repeat constructor.
Defined.

(** ** A regex fix that matches nothing *)





Section NoMatch.

Variable E : regex_engine.


End NoMatch.


(** ** Two fixes on one line *)

Lemma length_append (s t : string) :
  String.length (String.append s t) = (String.length s + String.length t)%nat.
Proof. induction s as [|a s IH]; simpl; [done|]. by rewrite IH. Qed.

Lemma length_prefix (s : string) (k : nat) :
  (k <= String.length s)%nat -> String.length (substring 0 k s) = k.
Proof.
  revert k. induction s as [|a s IH]; intros k Hk; simpl in Hk.
  - by replace k with 0%nat by lia.
  - destruct k as [|k]; [done|]. simpl. rewrite IH; [done|lia].
Qed.

Lemma length_suffix (s : string) (e : nat) :
  (e <= String.length s)%nat ->
  String.length (substring e (String.length s - e) s) = (String.length s - e)%nat.
Proof.
  revert e. induction s as [|c s IH]; intros e He; [by destruct e|].
  destruct e as [|e].
  - rewrite Nat.sub_0_r, length_prefix; [done|lia].
  - simpl in He. simpl. apply IH. lia.
Qed.

Lemma prefix_of_append (a b : string) (k : nat) :
  substring 0 (String.length a + k) (String.append a b)
  = String.append a (substring 0 k b).
Proof. induction a as [|c a IH]; simpl; [done|]. by rewrite IH. Qed.

Lemma substring_past_append (a b : string) (i n : nat) :
  substring (String.length a + i) n (String.append a b) = substring i n b.
Proof. induction a as [|c a IH]; simpl; [done|]. by rewrite IH. Qed.

Lemma prefix_of_suffix (s : string) (j m k : nat) :
  (k <= m)%nat -> substring 0 k (substring j m s) = substring j k s.
Proof.
  revert j m k. induction s as [|c s IH]; intros j m k Hk.
  - destruct j, m, k; done.
  - destruct j as [|j].
    + destruct m as [|m]; [by replace k with 0%nat by lia|].
      destruct k as [|k]; [done|]. simpl. rewrite (IH 0%nat) by lia. done.
    + simpl. by apply IH.
Qed.

Lemma suffix_of_suffix (s : string) (j i : nat) :
  (j + i <= String.length s)%nat ->
  substring i (String.length s - j - i) (substring j (String.length s - j) s)
  = substring (j + i) (String.length s - (j + i)) s.
Proof.
  revert j i. induction s as [|c s IH]; intros j i H.
  - simpl in H. replace j with 0%nat by lia. replace i with 0%nat by lia. done.
  - destruct j as [|j].
    + rewrite !Nat.sub_0_r, substring_whole. reflexivity.
    + simpl in *. apply IH. lia.
Qed.

(** Editing an edited line at columns shifted by the first edit is
    editing the original line in both places. *)
Lemma edit_line_twice (l f1 f2 : string) (sc1 ec1 sc2 ec2 : nat) :
  (sc1 <= ec1)%nat -> (ec1 <= sc2)%nat -> (sc2 <= ec2)%nat ->
  (ec2 <= String.length l)%nat ->
  edit_line (edit_line l sc1 ec1 f1)
    (sc1 + String.length f1 + (sc2 - ec1))
    (sc1 + String.length f1 + (ec2 - ec1)) f2
  = String.append (substring 0 sc1 l)
      (String.append f1
         (String.append (substring ec1 (sc2 - ec1) l)
            (String.append f2 (substring ec2 (String.length l - ec2) l)))).
Proof.
  intros H1 H2 H3 H4. unfold edit_line.
  set (A := substring 0 sc1 l).
  set (C := substring ec1 (String.length l - ec1) l).
  assert (HA : String.length A = sc1) by (apply length_prefix; lia).
  assert (HC : String.length C = (String.length l - ec1)%nat)
    by (apply length_suffix; lia).
  rewrite <- (append_assoc A f1 C).
  replace (sc1 + String.length f1 + (sc2 - ec1))%nat
    with (String.length (String.append A f1) + (sc2 - ec1))%nat
    by (rewrite length_append; lia).
  replace (sc1 + String.length f1 + (ec2 - ec1))%nat
    with (String.length (String.append A f1) + (ec2 - ec1))%nat
    by (rewrite length_append; lia).
  rewrite prefix_of_append, substring_past_append.
  rewrite !length_append, HC.
  replace (String.length A + String.length f1 + (String.length l - ec1)
           - (String.length A + String.length f1 + (ec2 - ec1)))%nat
    with (String.length l - ec1 - (ec2 - ec1))%nat by lia.
  unfold C. rewrite prefix_of_suffix by lia.
  rewrite suffix_of_suffix by lia.
  replace (ec1 + (ec2 - ec1))%nat with ec2 by lia.
  rewrite !append_assoc. reflexivity.
Qed.

Section SameLine.

Variable E : regex_engine.

(** X17: two literal fixes on the same line of a file, the second match
    starting at or after the end of the first, each inside the line, when
    neither the line nor the two replacements hold a line boundary of
    [str.splitlines] and the replacements are not empty, applied in one
    pass from left to right: the column
    offset kept after the first fix moves the second match by the change
    in length, so the line ends as the original line with both stretches
    replaced, and every other line is as it was. *)
Theorem fixes_on_one_line_compose (fs : disk) (rule p content : string)
    (f1 f2 l : string) (i sc1 ec1 sc2 ec2 : nat) :
  fs !! p = Some content ->
  Py.split_on Py.LF (Py.universal_newlines content) !! i = Some l ->
  (sc1 <= ec1)%nat -> (ec1 <= sc2)%nat -> (sc2 <= ec2)%nat ->
  (ec2 <= String.length l)%nat ->
  f1 <> EmptyString -> linebreak_free f1 = true ->
  f2 <> EmptyString -> linebreak_free f2 = true ->
  linebreak_free l = true ->
  st_disk (run_state
    (apply_fixes E fs
       [(rule,
         [Scenario.literal_match p (Z.of_nat i + 1) (Z.of_nat sc1 + 1)
            (Z.of_nat i + 1) (Z.of_nat ec1 + 1) f1;
          Scenario.literal_match p (Z.of_nat i + 1) (Z.of_nat sc2 + 1)
            (Z.of_nat i + 1) (Z.of_nat ec2 + 1) f2])] false)) !! p
  = Some (Py.join_with Py.LF
            (<[i := String.append (substring 0 sc1 l)
                      (String.append f1
                         (String.append (substring ec1 (sc2 - ec1) l)
                            (String.append f2
                               (substring ec2 (String.length l - ec2) l))))]>
               (Py.split_on Py.LF (Py.universal_newlines content)))).
Proof.
  intros Hp Hl H1 H2 H3 H4 Hf1 Hfree1 Hf2 Hfree2 Hlfree.
  set (lines := Py.split_on Py.LF (Py.universal_newlines content)) in *.
  assert (Hlines : _get_lines fs p = inr lines)
    by (unfold _get_lines; by rewrite Hp).
  destruct (get_lines_no_cr fs p lines Hlines) as (Hcr & Hlf & Hnonempty).
  destruct (edit_line_clean l f1 sc1 ec1 Hf1 Hfree1 Hlfree) as [Hne1 Hclean1].
  set (l' := edit_line l sc1 ec1 f1) in *.
  set (lines1 := <[i := l']> lines).
  pose proof (lookup_lt_Some _ _ _ Hl) as Hi.
  assert (Hlines1 : forall fs', _get_lines
            (_write_contents fs' p (Py.join_with Py.LF lines1)) p = inr lines1).
  { intros fs'. apply get_lines_after_write.
    - unfold lines1. intros Hnil. apply (f_equal length) in Hnil.
      rewrite length_insert in Hnil. by destruct lines.
    - apply insert_keeps; [done|]. by apply linebreak_free_no_cr.
    - apply insert_keeps; [done|]. by apply linebreak_free_no_lf. }
  assert (Hlen' : String.length l'
                  = (sc1 + String.length f1 + (String.length l - ec1))%nat).
  { unfold l', edit_line. rewrite !length_append, length_prefix by lia.
    rewrite length_suffix by lia. lia. }
  unfold apply_fixes, apply_rules, apply_matches.
  unfold apply_one at 1, retrieve_offsets. simpl. rewrite lookup_empty.
  unfold track_active_line. simpl. rewrite bool_decide_true by done.
  unfold compute_fix at 1, truthy_opt. simpl.
  assert (Ht1 : Py.truthy f1 = true) by (by destruct f1). rewrite Ht1.
  erewrite (basic_fix_on_one_line fs _ _ f1 lines l i sc1 ec1);
    [|done|simpl; lia..|done|lia|done|done|done].
  simpl. fold l'. fold lines1.
  unfold apply_one, retrieve_offsets. simpl. rewrite lookup_insert_eq.
  unfold track_active_line. simpl. rewrite bool_decide_true by done.
  unfold compute_fix, truthy_opt. simpl.
  assert (Ht2 : Py.truthy f2 = true) by (by destruct f2). rewrite Ht2.
  erewrite (basic_fix_on_one_line _ _ _ f2 lines1 l' i
              (sc1 + String.length f1 + (sc2 - ec1))
              (sc1 + String.length f1 + (ec2 - ec1)));
    [|apply Hlines1|simpl; unfold Py.len_str; lia..| |lia|done|done|done].
  - simpl. unfold _write_contents. rewrite lookup_insert_eq.
    unfold lines1. rewrite list_insert_insert_eq.
    unfold l'. by rewrite edit_line_twice.
  - unfold lines1. by rewrite list_lookup_insert_eq.
Qed.

End SameLine.

Lemma fixes_on_one_line_compose_witness :
  st_disk (run_state
    (apply_fixes Re.literal Scenario.three_times
       [("rule",
         [Scenario.literal_match "r.txt" (Z.of_nat 1 + 1) (Z.of_nat 0 + 1)
            (Z.of_nat 1 + 1) (Z.of_nat 3 + 1) "quux";
          Scenario.literal_match "r.txt" (Z.of_nat 1 + 1) (Z.of_nat 8 + 1)
            (Z.of_nat 1 + 1) (Z.of_nat 11 + 1) "x"])] false)) !! "r.txt"
  = Some (Py.join_with Py.LF ["foo"; "quux foo x"; "foo"]).
Proof.
  refine (fixes_on_one_line_compose Re.literal Scenario.three_times "rule" "r.txt"
            _ "quux" "x" "foo foo foo" 1 0 3 8 11
            eq_refl eq_refl _ _ _ _ _ eq_refl _ eq_refl eq_refl);
    try discriminate; repeat constructor.
Defined.

(** ** The swap on an example *)

Lemma restored_swap_ends_as_its_try_block_witness :
  (baseline_context Sample.handler (Sample.swap None)).2 = inr tt
  /\ (baseline_context Sample.handler (Sample.swap None)).1
     = [RanWriteTree (Finished (Exited 0 "4b825dc6" ""));
        Unlink (MkPath "new.txt") NotFound;
        LogVerbose "was not found when trying to delete";
        Checkout Baseline "main" (Finished (Exited 0 "" ""));
        Yield None;
        Checkout Restoration "4b825dc6" (Finished (Exited 0 "" ""));
        GitRm [MkPath "back.txt"] (Finished (Exited 1 "" ""))].
Proof.
  exact (restored_swap_ends_as_its_try_block Sample.handler (Sample.swap None)
           [RanWriteTree (Finished (Exited 0 "4b825dc6" ""))]
           "4b825dc6" "" "" 1 "" "" eq_refl eq_refl eq_refl).
Defined.

Lemma swap_passes_the_block_outcome_through_witness :
  (baseline_context Sample.handler (Sample.swap (Some "boom"))).2
  = inl (CallerError "boom").
Proof.
  refine (swap_passes_the_block_outcome_through Sample.handler
            (Sample.swap (Some "boom"))
            [RanWriteTree (Finished (Exited 0 "4b825dc6" ""))]
            "4b825dc6" "" "" 1 "" "" "" "" eq_refl _ eq_refl eq_refl eq_refl).
  intros i p. discriminate.
Defined.

Lemma block_runs_only_after_checkout_witness :
  (exists out err,
     checkout_baseline (Sample.swap (Some "boom")) = Finished (Exited 0 out err))
  /\ (unlink_added (unlink (Sample.swap (Some "boom"))) 0
        (added (status Sample.handler))).2 = inr tt
  /\ Some "boom" = body (Sample.swap (Some "boom")).
Proof.
  exact (block_runs_only_after_checkout Sample.handler (Sample.swap (Some "boom"))
           [RanWriteTree (Finished (Exited 0 "4b825dc6" ""));
            Unlink (MkPath "new.txt") NotFound;
            LogVerbose "was not found when trying to delete";
            Checkout Baseline "main" (Finished (Exited 0 "" ""))]
           [Checkout Restoration "4b825dc6" (Finished (Exited 0 "" ""));
            GitRm [MkPath "back.txt"] (Finished (Exited 1 "" ""))]
           (Some "boom") eq_refl).
Defined.

(** ** Fixes that cannot be applied *)

Section Refused.

Variable E : regex_engine.
Variable dryrun : bool.

Lemma index_past_end {A} (l : list A) (k : Z) :
  Py.len l <= k -> Py.index l k = None.
Proof.
  intros Hk. unfold Py.index, Py.len in *.
  destruct (Z.ltb_spec k 0); [lia|]. apply lookup_ge_None. lia.
Qed.

(** X18: a literal fix on a file that does not exist, or whose start or
    end line, corrected by the line offset kept for the file, lies past
    the last line of the file, ends the pass with "unable to modify file"
    (wrapping [FileNotFoundError] or [IndexError]); nothing is written and
    no file is added to the modified ones. *)
Theorem literal_fix_outside_file_raises (st : fix_state) (m : RuleMatch)
    (f : string) :
  truthy_opt (fix_ m) = Some f ->
  (st_disk st !! path m = None
   \/ exists lines,
        _get_lines (st_disk st) (path m) = inr lines
        /\ (Py.len lines
              <= line (start m) - 1
                 + line_offset (retrieve_offsets (st_offsets st) m).1
            \/ Py.len lines
                 <= line (end_ m) - 1
                    + line_offset (retrieve_offsets (st_offsets st) m).1)) ->
  exists st' e,
    apply_one E dryrun st m = Failed st' (UnableToModifyFile (path m) e)
    /\ st_disk st' = st_disk st
    /\ st_modified st' = st_modified st
    /\ (e = FileNotFoundError (path m) \/ e = IndexError).
Proof.
  intros Hfix Hwhy. unfold apply_one.
  destruct (retrieve_offsets (st_offsets st) m) as [fo0 aliased] eqn:Hret.
  simpl in Hwhy.
  assert (Hoff : line_offset (track_active_line fo0 m) = line_offset fo0)
    by (unfold track_active_line; by destruct (bool_decide _)).
  unfold compute_fix. rewrite Hfix. unfold _basic_fix.
  destruct Hwhy as [Hmissing | (lines & Hlines & Hpast)].
  - unfold _get_lines. rewrite Hmissing. simpl. eauto 10.
  - rewrite Hlines. unfold _get_match_context. rewrite Hoff.
    destruct Hpast as [Hpast|Hpast].
    + rewrite (index_past_end lines _ Hpast). simpl. eauto 10.
    + rewrite (index_past_end lines (line (end_ m) - 1 + line_offset fo0) Hpast).
      destruct (Py.index lines _); simpl; eauto 10.
Qed.

(** X19: a match without a literal fix whose [fix_regex] mapping lacks
    the pattern or the replacement, or gives either as the empty string,
    ends the pass with the error that both values are required.  With both
    given, a count that is a string [int()] does not read, or a float that
    is not a number, ends it with the error that the count must be an
    integer; a count that is [None], a list or a mapping ends it with the
    [TypeError] of [int()], and an infinite float with its
    [OverflowError], neither of which [apply_fixes] catches.  All of this
    happens before the file is read, so also for a file that does not
    exist, and nothing is written. *)
Theorem regex_directive_is_validated_first (st : fix_state) (m : RuleMatch)
    (d : FixRegex) :
  truthy_opt (fix_ m) = None ->
  truthy_fix_regex (fix_regex m) = Some d ->
  (truthy_opt (regex d) = None \/ truthy_opt (replacement d) = None ->
   exists st',
     apply_one E dryrun st m = Failed st' RegexAndReplacementRequired
     /\ st_disk st' = st_disk st /\ st_modified st' = st_modified st)
  /\ (forall re repl,
        truthy_opt (regex d) = Some re ->
        truthy_opt (replacement d) = Some repl ->
        ((exists s, count d = Some (CountNotInt s)) \/ count d = Some CountNaN ->
         exists st',
           apply_one E dryrun st m = Failed st' CountMustBeInteger
           /\ st_disk st' = st_disk st /\ st_modified st' = st_modified st)
        /\ (count d = Some CountNoNumber ->
            exists st',
              apply_one E dryrun st m = Failed st' (Uncaught TypeError)
              /\ st_disk st' = st_disk st /\ st_modified st' = st_modified st)
        /\ (count d = Some CountInfinity ->
            exists st',
              apply_one E dryrun st m = Failed st' (Uncaught OverflowError)
              /\ st_disk st' = st_disk st /\ st_modified st' = st_modified st)).
Proof.
  intros Hfix Hd. unfold apply_one.
  destruct (retrieve_offsets (st_offsets st) m) as [fo0 aliased].
  unfold compute_fix. rewrite Hfix, Hd. split.
  - intros [Hre|Hrepl].
    + rewrite Hre. eauto.
    + rewrite Hrepl. destruct (truthy_opt (regex d)); eauto.
  - intros re repl Hre Hrepl. rewrite Hre, Hrepl. repeat split.
    + intros [[s Hcount]|Hcount]; rewrite Hcount; simpl; eauto.
    + intros Hcount. rewrite Hcount. simpl. eauto.
    + intros Hcount. rewrite Hcount. simpl. eauto.
Qed.

End Refused.

Lemma literal_fix_outside_file_raises_witness :
  exists st' e,
    apply_one Re.literal false (initial_state Scenario.a_txt)
      (Scenario.literal_match "a.txt" 4 1 4 2 "qux")
    = Failed st' (UnableToModifyFile "a.txt" e)
    /\ st_disk st' = Scenario.a_txt
    /\ st_modified st' = ∅
    /\ (e = FileNotFoundError "a.txt" \/ e = IndexError).
Proof.
  apply (literal_fix_outside_file_raises Re.literal false
           (initial_state Scenario.a_txt)
           (Scenario.literal_match "a.txt" 4 1 4 2 "qux") "qux" eq_refl).
  right. exists ["foo bar"; "baz foo"; ""]. split; [reflexivity|].
  left. vm_compute. discriminate.
Defined.

Lemma regex_directive_is_validated_first_witness :
  (exists st',
     apply_one Re.literal false (initial_state ∅)
       (Scenario.regex_match "gone.txt" 1 1 1 4
          {| regex := Some ""; replacement := Some "qux"; count := None |})
     = Failed st' RegexAndReplacementRequired
     /\ st_disk st' = ∅ /\ st_modified st' = ∅)
  /\ (exists st',
        apply_one Re.literal false (initial_state ∅)
          (Scenario.regex_match "gone.txt" 1 1 1 4
             (Scenario.directive (Some (CountNotInt "many"))))
        = Failed st' CountMustBeInteger
        /\ st_disk st' = ∅ /\ st_modified st' = ∅)
  /\ (exists st',
        apply_one Re.literal false (initial_state ∅)
          (Scenario.regex_match "gone.txt" 1 1 1 4
             (Scenario.directive (Some CountNoNumber)))
        = Failed st' (Uncaught TypeError)
        /\ st_disk st' = ∅ /\ st_modified st' = ∅).
Proof.
  split; [|split].
  - apply (proj1 (regex_directive_is_validated_first Re.literal false
             (initial_state ∅)
             (Scenario.regex_match "gone.txt" 1 1 1 4
                {| regex := Some ""; replacement := Some "qux"; count := None |})
             {| regex := Some ""; replacement := Some "qux"; count := None |}
             eq_refl eq_refl)).
    by left.
  - apply (proj1 (proj2 (regex_directive_is_validated_first Re.literal false
             (initial_state ∅)
             (Scenario.regex_match "gone.txt" 1 1 1 4
                (Scenario.directive (Some (CountNotInt "many"))))
             (Scenario.directive (Some (CountNotInt "many")))
             eq_refl eq_refl) "foo" "qux" eq_refl eq_refl)).
    left. by exists "many".
  - apply (proj1 (proj2 (proj2 (regex_directive_is_validated_first Re.literal false
             (initial_state ∅)
             (Scenario.regex_match "gone.txt" 1 1 1 4
                (Scenario.directive (Some CountNoNumber)))
             (Scenario.directive (Some CountNoNumber))
             eq_refl eq_refl) "foo" "qux" eq_refl eq_refl))).
    reflexivity.
Defined.

(** ** Construction that fails *)

(** X20: what the construction of a handler raises when a git command
    fails.  If [git cat-file] exits with a code other than 0 the error is
    that the reference cannot be found, whatever the other commands would
    answer.  If the reference exists and [git diff], or, once the status
    set is read, [git status] exits with a code other than 0, the error is
    the "error initializing baseline" exception with that command and
    code.  A timeout of [git diff] is raised as it is, not wrapped. *)
Theorem construction_reports_failed_commands (fuel : nat) (base_commit : string)
    (o : init_oracle) :
  (forall code out err,
     cat_file o = Exited code out err -> code <> 0 ->
     BaselineHandler__init__ fuel base_commit o
     = Error (GitException (CannotFindCommit base_commit)))
  /\ (forall out err code out' err',
        cat_file o = Exited 0 out err ->
        git_diff o = Finished (Exited code out' err') -> code <> 0 ->
        BaselineHandler__init__ fuel base_commit o
        = Error (GitException
                   (ErrorInitializingBaseline (git_diff_cmd base_commit) code)))
  /\ (forall out err st code out' err',
        cat_file o = Exited 0 out err ->
        _get_git_status fuel base_commit (git_diff o) (is_symlink_to_dir o)
        = Done st ->
        git_status o = Finished (Exited code out' err') -> code <> 0 ->
        BaselineHandler__init__ fuel base_commit o
        = Error (GitException (ErrorInitializingBaseline git_status_cmd code)))
  /\ (forall out err,
        cat_file o = Exited 0 out err ->
        git_diff o = TimedOut ->
        BaselineHandler__init__ fuel base_commit o
        = Error (TimeoutExpired (git_diff_cmd base_commit))).
Proof.
  unfold BaselineHandler__init__. repeat split.
  - intros code out err -> Hcode. unfold subprocess_run. simpl.
    by destruct (Z.eqb_spec code 0).
  - intros out err code out' err' -> Hdiff Hcode.
    unfold _get_git_status, subprocess_run. rewrite Hdiff. simpl.
    by destruct (Z.eqb_spec code 0).
  - intros out err st code out' err' -> -> Hstatus Hcode.
    unfold _abort_on_pending_changes, _get_dirty_paths_by_status, subprocess_run.
    rewrite Hstatus. simpl. by destruct (Z.eqb_spec code 0).
  - intros out err -> Hdiff. unfold _get_git_status, subprocess_run.
    by rewrite Hdiff.
Qed.

(** X21: when the reference exists, the status set has been read and
    [git status] exits with 0 without an empty record, the construction of
    a handler raises the pending-changes error if some record starts with
    a character other than the untracked code, and otherwise completes with
    the status set and the dirty-path index it has read. *)
Theorem construction_requires_clean_tree (fuel : nat) (base_commit : string)
    (o : init_oracle) (st : GitStatus) (out err out' err' : string) :
  cat_file o = Exited 0 out err ->
  _get_git_status fuel base_commit (git_diff o) (is_symlink_to_dir o) = Done st ->
  git_status o = Finished (Exited 0 out' err') ->
  Forall (fun line => line <> EmptyString) (zsplit out') ->
  ((exists line, line ∈ zsplit out' /\ first_char line <> StatusCode.Untracked) ->
   BaselineHandler__init__ fuel base_commit o = Error (GitException PendingChanges))
  /\ ((forall line, line ∈ zsplit out' -> first_char line = StatusCode.Untracked) ->
      exists dirty_paths,
        BaselineHandler__init__ fuel base_commit o
        = Done {| _base_commit := base_commit;
                  _dirty_paths_by_status := Some dirty_paths;
                  status := st |}
        /\ _get_dirty_paths_by_status None (git_status o) = inr dirty_paths).
Proof.
  intros Hcat Hdiff Hstatus Hall.
  destruct (pending_changes_iff out' err' Hall) as [Hiff Hclean].
  destruct (dirty_paths_lookup out' err' Hall) as (d & Hd & _).
  unfold BaselineHandler__init__. rewrite Hcat, Hdiff, Hstatus. simpl. split.
  - intros Hdirty. apply Hiff in Hdirty. by rewrite Hdirty.
  - intros Hq. rewrite (Hclean Hq), Hd.
    unfold _abort_on_conflicting_untracked_paths.
    rewrite overlapping_paths_empty, bool_decide_true by done.
    by exists d.
Qed.

Lemma construction_requires_clean_tree_witness :
  BaselineHandler__init__ 1 "main"
    {| cat_file := Exited 0 "" "";
       git_diff := Finished (Exited 0 "" "");
       is_symlink_to_dir := fun _ => false;
       git_status := Finished (Exited 0 (nul_terminated [" M src/a.py"]) "") |}
  = Error (GitException PendingChanges).
Proof.
  refine (proj1 (construction_requires_clean_tree 1 "main"
            {| cat_file := Exited 0 "" "";
               git_diff := Finished (Exited 0 "" "");
               is_symlink_to_dir := fun _ => false;
               git_status := Finished (Exited 0 (nul_terminated [" M src/a.py"]) "") |}
            empty_status "" "" (nul_terminated [" M src/a.py"]) ""
            eq_refl eq_refl eq_refl _) _).
  - vm_compute. repeat constructor. discriminate.
  - exists " M src/a.py". split; [|discriminate].
    vm_compute. apply list_elem_of_here.
Defined.
